(** * CM11A controller: transaction engine of [src/CM11A.js]

    A shallow embedding of the controller object of [CM11A.js] and of the
    methods attached to it.  The controller is a JavaScript object whose
    methods mutate its fields and talk to three collaborators that are not
    part of the file: the serial port ([serialport]), the host's timers
    ([setTimeout]/[clearTimeout]) and the transaction objects built by
    [CM11ATransactions].  Field mutation is modelled by explicit state
    passing; every call that leaves the controller is recorded, in order,
    in a trace of effects; a JavaScript [throw] is an explicit outcome.

    The development covers one controller object.  ([NewCm11A] builds it
    with [Object.create(CM11A)]: [events] and [transactionQueue] live on
    the prototype, the other fields become own properties on their first
    assignment.) *)

From Stdlib Require Import ZArith List String Bool Lia.
From stdpp Require Import base gmap strings list.

Local Open Scope string_scope.
Local Open Scope Z_scope.
Local Open Scope list_scope.

(** ** JavaScript values that cross the controller's interface *)

(** An element of a [Uint8Array]. *)
Definition byte := Z.

#[local] Set Warnings "-register-all".

Inductive jsval : Type :=
| JUndefined
| JNull
| JBool (b : bool)
| JNum (n : Z)
| JStr (s : string)
| JArr (items : list jsval)
| JObj (fields : list (string * jsval))
| JFun (f : nat).

Definition typeof (v : jsval) : string :=
  match v with
  | JUndefined => "undefined"
  | JNull => "object"
  | JBool _ => "boolean"
  | JNum _ => "number"
  | JStr _ => "string"
  | JArr _ => "object"
  | JObj _ => "object"
  | JFun _ => "function"
  end.

(** The test of [if (v)]. *)
Definition truthy (v : jsval) : bool :=
  match v with
  | JUndefined => false
  | JNull => false
  | JBool b => b
  | JNum n => negb (n =? 0)
  | JStr s => negb (String.eqb s "")
  | JArr _ => true
  | JObj _ => true
  | JFun _ => true
  end.

(** The test of [v !== undefined]. *)
Definition defined (v : jsval) : bool :=
  match v with
  | JUndefined => false
  | _ => true
  end.

Definition PortId := nat.
Definition TimerHandle := nat.

(** ** The collaborators the file [require]s *)

(** [CM11ACodes]: the function codes used by the unit commands and the
    three poll markers [rx.*] the byte router compares against.  The
    controller only reads these constants; they are parameters here. *)
Class CM11ACodes := {
  ON : jsval;
  OFF : jsval;
  DIM : jsval;
  BRIGHT : jsval;
  POLL_REQUEST : byte;
  POLL_POWER_FAIL : byte;
  POLL_EEPROM_ADDRESS : byte
}.

(** What a transaction may call back on the controller it was built with:
    the methods listed under "Callback methods" of the controller object. *)
Inductive CtrlCall : Type :=
| CallWrite (data : list byte) (timer : option Z)
| CallCancelTimer
| CallNotifyUnitStatus (x10Function houseCode level units : jsval)
| CallNotifyCM11AStatus (status : jsval).

(** [CM11ATransactions]: the five factories the controller calls, and the
    two methods it invokes on a transaction object.  A transaction is a
    mutable object: [run] and [handleMessage] return the object after the
    call, together with the controller methods they invoked meanwhile, in
    order.  The promise returned by [run] settles later, on a turn of its
    own (see [settle]). *)
Class CM11ATransactions := {
  Trans : Type;
  Command : jsval -> jsval -> jsval -> Trans;
  StatusRequest : Trans;
  PollResponse : list byte -> Trans;
  SetClock : Trans;
  EepromAddress : list byte -> Trans;
  run : Trans -> Trans * list CtrlCall;
  handleMessage : Trans -> list byte -> Trans * bool * list CtrlCall
}.

(** The two ways the promise of [run] can settle. *)
Inductive outcome : Type := Fulfilled | Rejected.

Inductive exn : Type :=
| ThrowString (msg : string)
| TypeError (msg : string).

Section Model.

Context {codes : CM11ACodes} {tx : CM11ATransactions}.

(** ** State *)

(** Calls that leave the controller, as they happen. *)
Inductive effect : Type :=
| ENewSerialPort (p : PortId) (device : string) (baudRate : Z)
| ESerialOn (p : PortId) (signal : string)
| ESerialWrite (p : PortId) (data : list byte)
| ESerialClose (p : PortId)
| ESetTimeout (h : TimerHandle) (ms : Z)
| EClearTimeout (h : TimerHandle)
| ERun (t : Trans)
| EHandleMessage (t : Trans) (data : list byte)
| ECall (f : nat) (args : list jsval)
| EConsoleLog (v : jsval).

(** The fields of the controller object.  [serial] is [{}] ([None]) until
    [Start] stores a port in it. *)
Record CM11A : Type := mkCM11A {
  serial : option PortId;
  running : bool;
  currentTrans : option Trans;
  transactionQueue : list Trans;
  timer : option TimerHandle;
  events : gmap string jsval
}.

(** The controller together with the part of the host it acts on: the
    timers that are armed and have neither fired nor been cleared, the
    next fresh timer handle and port, and the trace. *)
Record World : Type := mkWorld {
  ctrl : CM11A;
  pendingTimers : list TimerHandle;
  freshTimer : nat;
  freshPort : nat;
  trace : list effect
}.

Definition set_serial (v : option PortId) (c : CM11A) : CM11A :=
  mkCM11A v (running c) (currentTrans c) (transactionQueue c) (timer c) (events c).
Definition set_running (v : bool) (c : CM11A) : CM11A :=
  mkCM11A (serial c) v (currentTrans c) (transactionQueue c) (timer c) (events c).
Definition set_currentTrans (v : option Trans) (c : CM11A) : CM11A :=
  mkCM11A (serial c) (running c) v (transactionQueue c) (timer c) (events c).
Definition set_transactionQueue (v : list Trans) (c : CM11A) : CM11A :=
  mkCM11A (serial c) (running c) (currentTrans c) v (timer c) (events c).
Definition set_timer (v : option TimerHandle) (c : CM11A) : CM11A :=
  mkCM11A (serial c) (running c) (currentTrans c) (transactionQueue c) v (events c).
Definition set_events (v : gmap string jsval) (c : CM11A) : CM11A :=
  mkCM11A (serial c) (running c) (currentTrans c) (transactionQueue c) (timer c) v.

Definition with_ctrl (f : CM11A -> CM11A) (w : World) : World :=
  mkWorld (f (ctrl w)) (pendingTimers w) (freshTimer w) (freshPort w) (trace w).
Definition with_trace (e : list effect) (w : World) : World :=
  mkWorld (ctrl w) (pendingTimers w) (freshTimer w) (freshPort w) (trace w ++ e).

(** ** Outcomes: a method returns or throws; the mutations made before a
    throw stay. *)
Inductive result (A : Type) : Type :=
| Ok (a : A) (w : World)
| Throw (e : exn) (w : World).
Arguments Ok {A} a w.
Arguments Throw {A} e w.

Definition M (A : Type) : Type := World -> result A.

Definition ret {A} (a : A) : M A := fun w => Ok a w.
Definition bind {A B} (m : M A) (k : A -> M B) : M B :=
  fun w => match m w with
           | Ok a w' => k a w'
           | Throw e w' => Throw e w'
           end.
Definition throw {A} (e : exn) : M A := fun w => Throw e w.
Definition emit (e : effect) : M unit := fun w => Ok tt (with_trace [e] w).
Definition update (f : CM11A -> CM11A) : M unit := fun w => Ok tt (with_ctrl f w).

(** The world a call ends in, whether it returned or threw. *)
Definition world_of {A} (r : result A) : World :=
  match r with
  | Ok _ w => w
  | Throw _ w => w
  end.

Notation "'let*' x ':=' m 'in' k" := (bind m (fun x => k))
  (at level 10, x name, m at level 100, k at level 200, only parsing).

(** ** The controller object and its methods *)

(** The keys of the table [EVENTS]. *)
Definition EVENTS : list string := ["unitStatus"; "status"; "close"].

(** [NewCm11A()]: the fields as the object literal [CM11A] gives them. *)
Definition NewCm11A : CM11A :=
  {| serial := None;
     running := false;
     currentTrans := None;
     transactionQueue := [];
     timer := None;
     events := <["unitStatus" := JUndefined]>
               (<["status" := JUndefined]>
               (<["close" := JUndefined]> ∅)) |}.

Definition initWorld : World :=
  {| ctrl := NewCm11A; pendingTimers := []; freshTimer := 0%nat;
     freshPort := 0%nat; trace := [] |}.

(** [f(args)] for a value [f] read from the controller.  A listener is
    code of the user: its call is recorded, and it is taken to return
    without calling the controller back. *)
Definition call (v : jsval) (args : list jsval) : M unit :=
  match v with
  | JFun f => emit (ECall f args)
  | _ => throw (TypeError "not a function")
  end.

(** [this.serial.close()] *)
Definition serial_close : M unit :=
  fun w => match serial (ctrl w) with
           | Some p => emit (ESerialClose p) w
           | None => throw (TypeError "this.serial.close is not a function") w
           end.

Definition SetEvent (event : string) (callBack : jsval) : M unit :=
  fun w =>
    match events (ctrl w) !! event with
    | None => throw (ThrowString ("Invalid event: " +:+ event)) w
    | Some _ =>
        if negb (String.eqb (typeof callBack) "function")
        then throw (ThrowString "Expected function for callBack.") w
        else update (fun c => set_events (<[event := callBack]> (events c)) c) w
    end.

Definition Start (device : string) : M bool :=
  fun w =>
    let w1 :=
      if negb (running (ctrl w)) then
        let p := freshPort w in
        {| ctrl := set_running true (set_serial (Some p) (ctrl w));
           pendingTimers := pendingTimers w;
           freshTimer := freshTimer w;
           freshPort := S p;
           trace := trace w ++ [ENewSerialPort p device 4800;
                                ESerialOn p "data";
                                ESerialOn p "error";
                                ESerialOn p "close"] |}
      else w in
    Ok (running (ctrl w1)) w1.

Definition Stop : M unit :=
  fun w =>
    match currentTrans (ctrl w) with
    | Some _ => update (set_running false) w
    | None => serial_close w
    end.

Definition Stopped : M unit :=
  let* _ := update (set_running false) in
  fun w =>
    match events (ctrl w) !! "close" with
    | Some cb => if truthy cb then call cb [] w else ret tt w
    | None => ret tt w
    end.

Definition SerialWrite (data : list byte) (timeout : option Z) : M unit :=
  fun w =>
    match serial (ctrl w) with
    | None => throw (TypeError "this.serial.write is not a function") w
    | Some p =>
        let w1 := with_trace [ESerialWrite p data] w in
        match timeout with
        | Some ms =>
            let h := freshTimer w1 in
            Ok tt {| ctrl := set_timer (Some h) (ctrl w1);
                     pendingTimers := pendingTimers w1 ++ [h];
                     freshTimer := S h;
                     freshPort := freshPort w1;
                     trace := trace w1 ++ [ESetTimeout h ms] |}
        | None => Ok tt w1
        end
    end.

Definition CancelTimer : M unit :=
  fun w =>
    match timer (ctrl w) with
    | Some h =>
        Ok tt {| ctrl := set_timer None (ctrl w);
                 pendingTimers := List.filter (fun h' => negb (Nat.eqb h' h)) (pendingTimers w);
                 freshTimer := freshTimer w;
                 freshPort := freshPort w;
                 trace := trace w ++ [EClearTimeout h] |}
    | None => Ok tt w
    end.

Definition NotifyUnitStatus (x10Function houseCode level units : jsval) : M unit :=
  fun w =>
    match events (ctrl w) !! "unitStatus" with
    | Some cb =>
        if defined cb
        then call cb [JObj [("units", units);
                            ("x10Function", x10Function);
                            ("level", level)]] w
        else ret tt w
    | None => ret tt w
    end.

Definition NotifyStatus (status : jsval) : M unit :=
  fun w =>
    match events (ctrl w) !! "status" with
    | Some cb => if defined cb then call cb [status] w else ret tt w
    | None => ret tt w
    end.

Definition HandleError (error : jsval) : M unit := emit (EConsoleLog error).

(** The controller methods a transaction invoked during one of its own
    methods, replayed in order. *)
Definition exec_call (c : CtrlCall) : M unit :=
  match c with
  | CallWrite data t => SerialWrite data t
  | CallCancelTimer => CancelTimer
  | CallNotifyUnitStatus f h l u => NotifyUnitStatus f h l u
  | CallNotifyCM11AStatus s => NotifyStatus s
  end.

Fixpoint exec_calls (cs : list CtrlCall) : M unit :=
  match cs with
  | [] => ret tt
  | c :: cs' => let* _ := exec_call c in exec_calls cs'
  end.

(** [ctrl.currentTrans = trans; ctrl.currentTrans.run().then(..., ...)] when
    the engine runs and is idle, [ctrl.transactionQueue.push(trans)] when it
    runs and is busy. *)
Definition RunTransaction (trans : Trans) : M unit :=
  fun w =>
    if running (ctrl w) then
      match currentTrans (ctrl w) with
      | None =>
          let '(trans', calls) := run trans in
          (let* _ := update (set_currentTrans (Some trans')) in
           let* _ := emit (ERun trans) in
           exec_calls calls) w
      | Some _ =>
          update (fun c => set_transactionQueue (transactionQueue c ++ [trans]) c) w
      end
    else ret tt w.

Definition RunQueuedTransaction : M unit :=
  let* _ := update (set_currentTrans None) in
  fun w =>
    if running (ctrl w) then
      match transactionQueue (ctrl w) with
      | t :: q =>
          (let* _ := update (set_transactionQueue q) in RunTransaction t) w
      | [] => ret tt w
      end
    else serial_close w.

(** The two functions handed to [then]. *)
Definition onFulfilled : M unit := RunQueuedTransaction.
Definition onRejected : M unit := RunQueuedTransaction.

(** The promise of the current transaction settles. *)
Definition settle (o : outcome) : M unit :=
  match o with
  | Fulfilled => onFulfilled
  | Rejected => onRejected
  end.

Definition TurnOn (units : jsval) : M unit :=
  RunTransaction (Command ON units JUndefined).
Definition TurnOff (units : jsval) : M unit :=
  RunTransaction (Command OFF units JUndefined).
Definition Dim (units level : jsval) : M unit :=
  RunTransaction (Command DIM units level).
Definition Bright (units level : jsval) : M unit :=
  RunTransaction (Command BRIGHT units level).
Definition Status : M unit := RunTransaction StatusRequest.

(** [this.currentTrans.handleMessage(data)], with what the transaction
    calls on the controller meanwhile. *)
Definition offer (t : Trans) (data : list byte) : M bool :=
  let '(t', used, calls) := handleMessage t data in
  let* _ := update (set_currentTrans (Some t')) in
  let* _ := emit (EHandleMessage t data) in
  let* _ := exec_calls calls in
  ret used.

(** [usedBuffer] after the lines
    [if(this.currentTrans) { usedBuffer = this.currentTrans.handleMessage(...) }]. *)
Definition offered (data : list byte) : M bool :=
  fun w => match currentTrans (ctrl w) with
           | Some t => offer t data w
           | None => ret false w
           end.

Definition SerialRead (data : list byte) : M unit :=
  fun w =>
    match data with
    | [] => ret tt w
    | b0 :: _ =>
        (let* usedBuffer := offered data in
         if negb usedBuffer then
           if b0 =? POLL_REQUEST then RunTransaction (PollResponse data)
           else if b0 =? POLL_POWER_FAIL then RunTransaction SetClock
           else if b0 =? POLL_EEPROM_ADDRESS then RunTransaction (EepromAddress data)
           else ret tt
         else ret tt) w
    end.

Definition Timeout : M unit :=
  fun w =>
    match currentTrans (ctrl w) with
    | Some t => (let* _ := offer t [] in ret tt) w
    | None => ret tt w
    end.

(** A timer armed by [SerialWrite] expires: the host drops it from its
    table and calls the function given to [setTimeout]. *)
Definition fire (h : TimerHandle) : M unit :=
  fun w =>
    if existsb (Nat.eqb h) (pendingTimers w) then
      Timeout {| ctrl := ctrl w;
                 pendingTimers := List.filter (fun h' => negb (Nat.eqb h' h)) (pendingTimers w);
                 freshTimer := freshTimer w;
                 freshPort := freshPort w;
                 trace := trace w |}
    else ret tt w.

(** ** Turns of the event loop *)

(** What can reach the controller: the calls of its user, the signals of
    the port subscribed to in [Start], the settling of the promise of the
    current transaction and the expiry of a timer.  Each is handled to its
    end before the next. *)
Inductive input : Type :=
| InOn (event : string) (callBack : jsval)
| InStart (device : string)
| InStop
| InSubmit (t : Trans)
| InData (data : list byte)
| InError (error : jsval)
| InClose
| InSettle (o : outcome)
| InFire (h : TimerHandle).

Definition step (i : input) : M unit :=
  match i with
  | InOn event callBack => SetEvent event callBack
  | InStart device => let* _ := Start device in ret tt
  | InStop => Stop
  | InSubmit t => RunTransaction t
  | InData data => SerialRead data
  | InError error => HandleError error
  | InClose => Stopped
  | InSettle o => settle o
  | InFire h => fire h
  end.

Fixpoint steps (l : list input) : M unit :=
  match l with
  | [] => ret tt
  | i :: l' => let* _ := step i in steps l'
  end.


(** Inputs other than a call of [start]. *)
Definition no_start (i : input) : bool :=
  match i with
  | InStart _ => false
  | _ => true
  end.


(** ** Reading a trace *)

(** The transactions whose [run] was called, in the order of the calls. *)
Fixpoint started (tr : list effect) : list Trans :=
  match tr with
  | [] => []
  | ERun t :: tr' => t :: started tr'
  | _ :: tr' => started tr'
  end.

(** How many times the function [f] was called. *)
Fixpoint invocations (f : nat) (tr : list effect) : nat :=
  match tr with
  | [] => 0%nat
  | ECall g _ :: tr' => ((if Nat.eqb f g then 1 else 0) + invocations f tr')%nat
  | _ :: tr' => invocations f tr'
  end.

(** The transactions started so far followed by those still waiting. *)
Definition order (w : World) : list Trans :=
  started (trace w) ++ transactionQueue (ctrl w).

(** ** Invariants *)

(** A listener slot holds [undefined] or a function. *)
Definition slot_ok (v : jsval) : Prop := v = JUndefined \/ exists f, v = JFun f.

(** The own keys of the listener table are those of [EVENTS]. *)
Definition has_event_keys (c : CM11A) : Prop :=
  forall k, is_Some (events c !! k) <-> In k EVENTS.

(** The listener table has the three keys of [EVENTS], each a proper slot. *)
Definition events_ok (c : CM11A) : Prop :=
  has_event_keys c /\
  (forall k v, events c !! k = Some v -> slot_ok v).

(** A running engine between two turns: it has a port, and is idle only
    when nothing waits. *)
Definition stable (w : World) : Prop :=
  running (ctrl w) = true /\
  (exists p, serial (ctrl w) = Some p) /\
  events_ok (ctrl w) /\
  (currentTrans (ctrl w) = None -> transactionQueue (ctrl w) = []).

(** At most one timer is armed, and its handle is the one in [timer]. *)
Definition one_timer (w : World) : Prop :=
  pendingTimers w = [] \/
  exists h, pendingTimers w = [h] /\ timer (ctrl w) = Some h.

(** Every write that arms a timer comes right after a [cancelTimer]. *)
Fixpoint disciplined (cs : list CtrlCall) : bool :=
  match cs with
  | [] => true
  | CallCancelTimer :: CallWrite _ _ :: cs' => disciplined cs'
  | CallWrite _ (Some _) :: _ => false
  | _ :: cs' => disciplined cs'
  end.

(** The transaction module keeps that discipline in both of its methods. *)
Definition disciplined_transactions : Prop :=
  (forall t, disciplined (snd (run t)) = true) /\
  (forall t data, disciplined (snd (handleMessage t data)) = true).

(** The world after the turns of [l], one after the other; a turn that
    throws leaves the world it threw in. *)
Definition run_all (l : list input) (w : World) : World :=
  fold_left (fun w0 i => world_of (step i w0)) l w.

(** What holds of the controller whatever it went through: its listener
    table is in order, and it has a port whenever it runs or has a
    transaction in flight. *)
Definition well_formed (w : World) : Prop :=
  events_ok (ctrl w) /\
  (running (ctrl w) = true -> exists p, serial (ctrl w) = Some p) /\
  (forall t, currentTrans (ctrl w) = Some t -> exists p, serial (ctrl w) = Some p).

(** The poll markers are three different bytes. *)
Definition markers_distinct : Prop :=
  POLL_REQUEST <> POLL_POWER_FAIL /\
  POLL_REQUEST <> POLL_EEPROM_ADDRESS /\
  POLL_POWER_FAIL <> POLL_EEPROM_ADDRESS.

(** The current transaction, if any, does not take the bytes. *)
Definition declines (w : World) (data : list byte) : Prop :=
  match currentTrans (ctrl w) with
  | Some t => snd (fst (handleMessage t data)) = false
  | None => True
  end.

(** ** Shapes of change used by the further properties *)

(** Whether an input is the completion of the current transaction. *)
Definition is_settle (i : input) : bool :=
  match i with
  | InSettle _ => true
  | _ => false
  end.

(** What one turn does to the queue and to the list of started
    transactions: nothing; or one transaction is put at the end of the
    queue; or one is started on the free slot without passing through the
    queue; or, at a completion, the head of the queue is taken and
    started. *)
Definition queue_step (completion : bool) (w w' : World) : Prop :=
  (transactionQueue (ctrl w') = transactionQueue (ctrl w) /\
   started (trace w') = started (trace w)) \/
  (exists t, transactionQueue (ctrl w') = transactionQueue (ctrl w) ++ [t] /\
             started (trace w') = started (trace w)) \/
  (exists t, transactionQueue (ctrl w') = transactionQueue (ctrl w) /\
             started (trace w') = started (trace w) ++ [t] /\
             currentTrans (ctrl w') = Some (fst (run t)) /\
             running (ctrl w) = true /\
             currentTrans (ctrl w) = None) \/
  (exists t, transactionQueue (ctrl w) = t :: transactionQueue (ctrl w') /\
             started (trace w') = started (trace w) ++ [t] /\
             currentTrans (ctrl w') = Some (fst (run t)) /\
             running (ctrl w) = true /\
             completion = true).

(** The inputs the controller is written for: a registration names one of
    the three events and gives a function; [stop()] comes after a first
    [start()]; a completion is that of a transaction in flight. *)
Definition admissible (i : input) (w : World) : Prop :=
  match i with
  | InOn event callBack => In event EVENTS /\ typeof callBack = "function"
  | InStop => exists p, serial (ctrl w) = Some p
  | InSettle _ => exists t, currentTrans (ctrl w) = Some t
  | _ => True
  end.

(** ** The host's timers as the controller sees them *)

(** The armed timers, the next handle and the handle in [timer]. *)
Definition timer_view (w : World) : list TimerHandle * nat * option TimerHandle :=
  (pendingTimers w, freshTimer w, timer (ctrl w)).

(** The two things the controller does to timers: [write] with a timeout
    arms a fresh one and keeps its handle; [cancelTimer] clears the one
    whose handle it kept. *)
Inductive timer_move :
  list TimerHandle * nat * option TimerHandle ->
  list TimerHandle * nat * option TimerHandle -> Prop :=
| move_arm (p : list TimerHandle) (f : nat) (s : option TimerHandle) :
    timer_move (p, f, s) (p ++ [f], S f, Some f)
| move_cancel (p : list TimerHandle) (f : nat) (h : TimerHandle) :
    timer_move (p, f, Some h)
               (List.filter (fun h' => negb (Nat.eqb h' h)) p, f, None).

(** The expiry of [h], on the side of the host. *)
Definition drop_timer (h : TimerHandle)
  (v : list TimerHandle * nat * option TimerHandle)
  : list TimerHandle * nat * option TimerHandle :=
  (List.filter (fun h' => negb (Nat.eqb h' h)) (fst (fst v)), snd (fst v), snd v).

(** Handles are given out in increasing order: those armed and the one
    kept in [timer] are below the next one. *)
Definition timers_fresh (w : World) : Prop :=
  (forall h, In h (pendingTimers w) -> (h < freshTimer w)%nat) /\
  (forall h, timer (ctrl w) = Some h -> (h < freshTimer w)%nat).

(** [h] is armed, but [timer] no longer holds it. *)
Definition orphaned (h : TimerHandle) (w : World) : Prop :=
  In h (pendingTimers w) /\ timer (ctrl w) <> Some h.

(** [h] was given out and is not armed. *)
Definition retired (h : TimerHandle) (w : World) : Prop :=
  ~ In h (pendingTimers w) /\ (h < freshTimer w)%nat.

(** Inputs other than the expiry of [h]. *)
Definition not_fire (h : TimerHandle) (i : input) : bool :=
  match i with
  | InFire h' => negb (Nat.eqb h' h)
  | _ => true
  end.

(** The two facts about handles that the moves keep. *)
Definition fresh_orphan (h : TimerHandle)
  (v : list TimerHandle * nat * option TimerHandle) : Prop :=
  (forall x, In x (fst (fst v)) -> (x < snd (fst v))%nat) /\
  (forall x, snd v = Some x -> (x < snd (fst v))%nat) /\
  In h (fst (fst v)) /\ snd v <> Some h.

Definition fresh_retired (h : TimerHandle)
  (v : list TimerHandle * nat * option TimerHandle) : Prop :=
  ~ In h (fst (fst v)) /\ (h < snd (fst v))%nat.

(** The ports on which [close] was called, in the order of the calls. *)
Fixpoint closed (tr : list effect) : list PortId :=
  match tr with
  | [] => []
  | ESerialClose p :: tr' => p :: closed tr'
  | _ :: tr' => closed tr'
  end.

(** The controller holds a port opened after [p]. *)
Definition superseded (p : PortId) (w : World) : Prop :=
  exists q, serial (ctrl w) = Some q /\ (p < q)%nat /\ (q < freshPort w)%nat.

(** What the callback methods, a submission and a hand-over leave alone
    on the side of the ports. *)
Definition ports_kept (w w' : World) : Prop :=
  serial (ctrl w') = serial (ctrl w) /\
  freshPort w' = freshPort w /\
  closed (trace w') = closed (trace w).

End Model.

Arguments Ok {tx A} a w.
Arguments Throw {tx A} e w.

(** ** A code table and a transaction module to run the model on *)

#[export] Instance sampleCodes : CM11ACodes := {|
  ON := JNum 2;
  OFF := JNum 3;
  DIM := JNum 4;
  BRIGHT := JNum 5;
  POLL_REQUEST := 90;
  POLL_POWER_FAIL := 165;
  POLL_EEPROM_ADDRESS := 91
|}.

Inductive SampleKind : Type :=
| KCommand (x10Function units level : jsval)
| KStatusRequest
| KPollResponse (data : list byte)
| KSetClock
| KEepromAddress (data : list byte).

(** A transaction of the sample module: its kind and the number of replies
    it has taken.  [run] writes one frame under a one second timer; an
    expired timer ([handleMessage] of no bytes) writes it again; a poll
    marker is declined, any other reply is taken. *)
Definition SampleTrans : Type := SampleKind * nat.

Definition sample_frame (k : SampleKind) : list byte :=
  match k with
  | KCommand _ _ _ => [4; 102]
  | KStatusRequest => [139]
  | KPollResponse _ => [195]
  | KSetClock => [155]
  | KEepromAddress _ => [251]
  end.

Definition sample_run (t : SampleTrans) : SampleTrans * list CtrlCall :=
  ((fst t, 0%nat), [CallCancelTimer; CallWrite (sample_frame (fst t)) (Some 1000)]).

Definition sample_handleMessage (t : SampleTrans) (data : list byte)
  : SampleTrans * bool * list CtrlCall :=
  match data with
  | [] => (t, true, [CallCancelTimer; CallWrite (sample_frame (fst t)) (Some 1000)])
  | b :: _ =>
      if (b =? 90) || (b =? 165) || (b =? 91)
      then (t, false, [])
      else ((fst t, S (snd t)), true, [CallCancelTimer])
  end.

#[export] Instance sampleTransactions : CM11ATransactions := {|
  Trans := SampleTrans;
  Command := fun f u l => (KCommand f u l, 0%nat);
  StatusRequest := (KStatusRequest, 0%nat);
  PollResponse := fun d => (KPollResponse d, 0%nat);
  SetClock := (KSetClock, 0%nat);
  EepromAddress := fun d => (KEepromAddress d, 0%nat);
  run := sample_run;
  handleMessage := sample_handleMessage
|}.

(** The controller after [start("/dev/ttyUSB0")]. *)
Definition startedWorld : World := world_of (Start "/dev/ttyUSB0" initWorld).

(** Three commands of the sample module. *)
Definition cmdA1on : @Trans sampleTransactions := (KCommand (JNum 2) (JArr [JStr "A1"]) JUndefined, 0%nat).
Definition cmdA1off : @Trans sampleTransactions := (KCommand (JNum 3) (JArr [JStr "A1"]) JUndefined, 0%nat).
Definition cmdA2on : @Trans sampleTransactions := (KCommand (JNum 2) (JArr [JStr "A2"]) JUndefined, 0%nat).

(** The started controller with [cmdA1on] in flight. *)
Definition busyWorld : World := world_of (RunTransaction cmdA1on startedWorld).

(** The same with [cmdA1off] waiting behind it. *)
Definition queuedWorld : World := world_of (RunTransaction cmdA1off busyWorld).

(** The started controller with listener 7 registered for ['unitStatus']. *)
Definition listeningWorld : World :=
  world_of (SetEvent "unitStatus" (JFun 7) startedWorld).

(** A session: a second command is submitted while the first is in flight,
    the engine is stopped, the first command completes and the port
    reports that it closed. *)
Definition stopSession : list input :=
  [InSubmit cmdA1off; InStop; InSettle Fulfilled; InClose].

(** Traffic in which a timer expires, a reply arrives and a poll follows. *)
Definition timedSession : list input :=
  [InSubmit cmdA1off; InFire 0%nat; InData [85]; InSettle Fulfilled; InData [90]].


(** [stop()] on the idle engine, a submission before the port has closed,
    and [stop()] again. *)
Definition stopTwice : list input := [InStop; InSubmit cmdA1on; InStop].

(** The started controller after two writes with a timeout and no
    [cancelTimer] between them. *)
Definition leakedWorld : World :=
  world_of (exec_calls [CallWrite [4; 102] (Some 1000);
                        CallWrite [4; 102] (Some 1000)] startedWorld).

(** Traffic in which the second of two timers expires, but not the first. *)
Definition laterSession : list input :=
  [InSubmit cmdA1on; InFire 1%nat; InData [85]; InSettle Fulfilled; InSubmit cmdA2on].

(** The next session: the engine is started again, a third command is
    submitted and completes. *)
Definition nextSession : list input :=
  [InStart "/dev/ttyUSB0"; InSubmit cmdA2on; InSettle Fulfilled].

Notation "'let*' x ':=' m 'in' k" := (bind m (fun x => k))
  (at level 10, x name, m at level 100, k at level 200, only parsing).

(** * Properties *)

Section Proofs.

Context {codes : CM11ACodes} {tx : CM11ATransactions}.

Implicit Types (w : World) (t : Trans) (cs : list CtrlCall).

(** ** Sequencing *)

Lemma bind_assoc {A B C} (m : M A) (k : A -> M B) (h : B -> M C) w :
  bind (bind m k) h w = bind m (fun a => bind (k a) h) w.
Proof. unfold bind. destruct (m w); reflexivity. Qed.

(** ** Traces *)

Lemma started_app (a b : list effect) :
  started (a ++ b) = started a ++ started b.
Proof.
  induction a as [|e a IH]; simpl; [reflexivity|].
  destruct e; simpl; rewrite ?IH; reflexivity.
Qed.

Lemma invocations_app (f : nat) (a b : list effect) :
  invocations f (a ++ b) = (invocations f a + invocations f b)%nat.
Proof.
  induction a as [|e a IH]; simpl; [reflexivity|].
  destruct e; simpl; rewrite ?IH; lia.
Qed.

(** ** What the callback methods leave alone *)

(** The callback methods ([write], [cancelTimer] and the two notifications)
    touch the timer slot, the host's timers and the trace only, and start
    no transaction. *)
Definition callback_frame (w w' : World) : Prop :=
  serial (ctrl w') = serial (ctrl w) /\
  running (ctrl w') = running (ctrl w) /\
  currentTrans (ctrl w') = currentTrans (ctrl w) /\
  transactionQueue (ctrl w') = transactionQueue (ctrl w) /\
  events (ctrl w') = events (ctrl w) /\
  freshPort w' = freshPort w /\
  exists tr, trace w' = trace w ++ tr /\ started tr = [].

Lemma callback_frame_refl w : callback_frame w w.
Proof.
  repeat split. exists []. rewrite app_nil_r. split; reflexivity.
Qed.

Lemma callback_frame_trans w1 w2 w3 :
  callback_frame w1 w2 -> callback_frame w2 w3 -> callback_frame w1 w3.
Proof.
  unfold callback_frame.
  intros (a1 & a2 & a3 & a4 & a5 & a6 & tr1 & a7 & a8)
         (b1 & b2 & b3 & b4 & b5 & b6 & tr2 & b7 & b8).
  repeat split; try congruence.
  exists (tr1 ++ tr2). split.
  - rewrite b7, a7, app_assoc. reflexivity.
  - rewrite started_app, a8, b8. reflexivity.
Qed.

Lemma callback_frame_started w w' :
  callback_frame w w' -> started (trace w') = started (trace w).
Proof.
  intros (_ & _ & _ & _ & _ & _ & tr & E & H).
  rewrite E, started_app, H, app_nil_r. reflexivity.
Qed.

Ltac frame_done :=
  unfold callback_frame; simpl; repeat split;
  first [ exists []; split; [rewrite app_nil_r; reflexivity | reflexivity]
        | eexists; split; [rewrite <- ?app_assoc; reflexivity | reflexivity] ].

Lemma call_frame (v : jsval) (args : list jsval) w :
  callback_frame w (world_of (call v args w)).
Proof. destruct v; frame_done. Qed.

Lemma exec_call_frame (c : CtrlCall) w :
  callback_frame w (world_of (exec_call c w)).
Proof.
  destruct c as [data [ms|] | | f h l u | s]; simpl.
  - unfold SerialWrite. destruct (serial (ctrl w)); frame_done.
  - unfold SerialWrite. destruct (serial (ctrl w)); frame_done.
  - unfold CancelTimer. destruct (timer (ctrl w)); frame_done.
  - unfold NotifyUnitStatus.
    destruct (events (ctrl w) !! "unitStatus") as [cb|]; [|frame_done].
    destruct (defined cb); [apply call_frame | frame_done].
  - unfold NotifyStatus.
    destruct (events (ctrl w) !! "status") as [cb|]; [|frame_done].
    destruct (defined cb); [apply call_frame | frame_done].
Qed.

Lemma exec_calls_frame cs w :
  callback_frame w (world_of (exec_calls cs w)).
Proof.
  revert w. induction cs as [|c cs IH]; intros w; simpl.
  - apply callback_frame_refl.
  - unfold bind. pose proof (exec_call_frame c w) as Hc.
    destruct (exec_call c w) as [[] w1|e w1]; simpl in *.
    + eapply callback_frame_trans; [exact Hc | apply IH].
    + exact Hc.
Qed.

(** With a port and proper listener slots no callback method throws. *)
Definition callbacks_safe (w : World) : Prop :=
  (exists p, serial (ctrl w) = Some p) /\
  (forall k v, events (ctrl w) !! k = Some v -> slot_ok v).

Lemma callbacks_safe_frame w w' :
  callback_frame w w' -> callbacks_safe w -> callbacks_safe w'.
Proof.
  intros (Hs & _ & _ & _ & He & _) [Hp Hk]. split.
  - rewrite Hs. exact Hp.
  - rewrite He. exact Hk.
Qed.

Lemma exec_call_returns (c : CtrlCall) w :
  callbacks_safe w -> exists w', exec_call c w = Ok tt w'.
Proof.
  intros [[p Hp] Hk].
  assert (Hnotify : forall key args,
    exists w', match events (ctrl w) !! key with
               | Some cb => if defined cb then call cb args w else ret tt w
               | None => ret tt w
               end = Ok tt w').
  { intros key args. destruct (events (ctrl w) !! key) as [cb|] eqn:E.
    - destruct (Hk _ _ E) as [->|[f ->]]; simpl; eexists; reflexivity.
    - eexists; reflexivity. }
  destruct c as [data [ms|] | | f h l u | s]; simpl.
  - unfold SerialWrite. rewrite Hp. eexists; reflexivity.
  - unfold SerialWrite. rewrite Hp. eexists; reflexivity.
  - unfold CancelTimer. destruct (timer (ctrl w)); eexists; reflexivity.
  - apply Hnotify.
  - apply Hnotify.
Qed.

Lemma exec_calls_returns cs w :
  callbacks_safe w -> exists w', exec_calls cs w = Ok tt w'.
Proof.
  revert w. induction cs as [|c cs IH]; intros w Hw; simpl.
  - eexists; reflexivity.
  - unfold bind. destruct (exec_call_returns c w Hw) as [w1 E].
    pose proof (exec_call_frame c w) as Hf. rewrite E in *. simpl in Hf.
    apply IH. eapply callbacks_safe_frame; eassumption.
Qed.

(** ** Submission *)

Lemma RunTransaction_idle t w :
  running (ctrl w) = true -> currentTrans (ctrl w) = None ->
  RunTransaction t w =
    exec_calls (snd (run t))
      (with_trace [ERun t] (with_ctrl (set_currentTrans (Some (fst (run t)))) w)).
Proof.
  intros Hr Hc. unfold RunTransaction. rewrite Hr, Hc.
  destruct (run t) as [t' calls]. reflexivity.
Qed.

Lemma RunTransaction_busy t w c :
  running (ctrl w) = true -> currentTrans (ctrl w) = Some c ->
  RunTransaction t w =
    Ok tt (with_ctrl (fun c => set_transactionQueue (transactionQueue c ++ [t]) c) w).
Proof.
  intros Hr Hc. unfold RunTransaction. rewrite Hr, Hc. reflexivity.
Qed.

Lemma RunTransaction_not_running t w :
  running (ctrl w) = false -> RunTransaction t w = Ok tt w.
Proof. intros Hr. unfold RunTransaction. rewrite Hr. reflexivity. Qed.

(** What starting a transaction on an idle running engine comes to. *)
Lemma RunTransaction_starts t w :
  running (ctrl w) = true -> currentTrans (ctrl w) = None ->
  let w' := world_of (RunTransaction t w) in
  serial (ctrl w') = serial (ctrl w) /\
  running (ctrl w') = true /\
  currentTrans (ctrl w') = Some (fst (run t)) /\
  transactionQueue (ctrl w') = transactionQueue (ctrl w) /\
  events (ctrl w') = events (ctrl w) /\
  (exists tr, trace w' = trace w ++ ERun t :: tr /\ started tr = []).
Proof.
  intros Hr Hc. rewrite (RunTransaction_idle t w Hr Hc). cbv zeta.
  match goal with |- context [exec_calls ?cs ?w0] =>
    destruct (exec_calls_frame cs w0) as (a1 & a2 & a3 & a4 & a5 & a6 & tr & a7 & a8)
  end.
  simpl in *. rewrite a1, a2, a3, a4, a5, a7. repeat split; try assumption.
  exists tr. rewrite <- app_assoc. split; [reflexivity | assumption].
Qed.

(** C2. [runTransaction(trans)]: on an engine that is not running the call
    returns without any change; on a running idle engine [trans] becomes
    the current transaction and its [run] is the next call made, the queue
    staying as it is; on a running busy engine [trans] is put at the end
    of the queue and nothing else changes. *)
Theorem RunTransaction_submit t w :
  (running (ctrl w) = false -> RunTransaction t w = Ok tt w) /\
  (running (ctrl w) = true -> currentTrans (ctrl w) = None ->
     let w' := world_of (RunTransaction t w) in
     currentTrans (ctrl w') = Some (fst (run t)) /\
     transactionQueue (ctrl w') = transactionQueue (ctrl w) /\
     running (ctrl w') = true /\
     (exists tr, trace w' = trace w ++ ERun t :: tr) /\
     started (trace w') = started (trace w) ++ [t]) /\
  (running (ctrl w) = true ->
     forall c, currentTrans (ctrl w) = Some c ->
     RunTransaction t w =
       Ok tt {| ctrl := {| serial := serial (ctrl w);
                           running := true;
                           currentTrans := Some c;
                           transactionQueue := transactionQueue (ctrl w) ++ [t];
                           timer := timer (ctrl w);
                           events := events (ctrl w) |};
                pendingTimers := pendingTimers w;
                freshTimer := freshTimer w;
                freshPort := freshPort w;
                trace := trace w |}).
Proof.
  split; [apply RunTransaction_not_running|]. split.
  - intros Hr Hc.
    destruct (RunTransaction_starts t w Hr Hc) as (_ & b2 & b3 & b4 & _ & tr & b6 & b7).
    cbv zeta. repeat split; try assumption.
    + exists tr. exact b6.
    + rewrite b6, started_app. simpl. rewrite b7. reflexivity.
  - intros Hr c Hc. rewrite (RunTransaction_busy t w c Hr Hc).
    unfold with_ctrl, set_transactionQueue. rewrite Hr, Hc. reflexivity.
Qed.

(** ** Completion *)

Lemma RunQueuedTransaction_not_running w p :
  running (ctrl w) = false -> serial (ctrl w) = Some p ->
  RunQueuedTransaction w =
    Ok tt (with_trace [ESerialClose p] (with_ctrl (set_currentTrans None) w)).
Proof.
  intros Hr Hp. unfold RunQueuedTransaction, bind, update, serial_close. simpl.
  rewrite Hr, Hp. reflexivity.
Qed.

Lemma RunQueuedTransaction_empty w :
  running (ctrl w) = true -> transactionQueue (ctrl w) = [] ->
  RunQueuedTransaction w = Ok tt (with_ctrl (set_currentTrans None) w).
Proof.
  intros Hr Hq. unfold RunQueuedTransaction, bind, update. simpl.
  rewrite Hr, Hq. reflexivity.
Qed.

Lemma RunQueuedTransaction_next w t q :
  running (ctrl w) = true -> transactionQueue (ctrl w) = t :: q ->
  RunQueuedTransaction w =
    RunTransaction t
      (with_ctrl (set_transactionQueue q) (with_ctrl (set_currentTrans None) w)).
Proof.
  intros Hr Hq. unfold RunQueuedTransaction, bind, update. simpl.
  rewrite Hr, Hq. reflexivity.
Qed.

(** ** Order of execution on a running engine *)

Lemma submit_stable t w :
  stable w ->
  exists w', RunTransaction t w = Ok tt w' /\ stable w' /\ order w' = order w ++ [t].
Proof.
  intros Hst. pose proof Hst as (Hr & Hp & He & Hq).
  destruct (currentTrans (ctrl w)) as [c|] eqn:Hc.
  - rewrite (RunTransaction_busy t w c Hr Hc). eexists. split; [reflexivity|]. split.
    + unfold stable. simpl. rewrite Hc. repeat split; try assumption; try apply He.
      discriminate.
    + unfold order. simpl. rewrite app_assoc. reflexivity.
  - pose proof (RunTransaction_starts t w Hr Hc) as Hs. cbv zeta in Hs.
    rewrite (RunTransaction_idle t w Hr Hc) in *.
    match goal with |- context [exec_calls ?cs ?w0] =>
      destruct (exec_calls_returns cs w0) as [w' E]
    end.
    { destruct He as [_ He]. split; simpl; assumption. }
    rewrite E in *. simpl in Hs.
    destruct Hs as (a1 & a2 & a3 & a4 & a5 & tr & a6 & a7).
    exists w'. split; [reflexivity|]. split.
    + unfold stable. rewrite a1, a2, a3, a4. repeat split; try assumption.
      * unfold events_ok in *. rewrite a5. apply He.
      * unfold events_ok in *. rewrite a5. apply He.
      * unfold events_ok in *. rewrite a5. apply He.
      * discriminate.
    + unfold order. rewrite a4, a6, started_app, (Hq eq_refl). simpl.
      rewrite a7, !app_nil_r. reflexivity.
Qed.


Ltac tidy := repeat (first [assumption | reflexivity | split]).

Lemma settle_stable (o : outcome) w :
  stable w ->
  exists w', settle o w = Ok tt w' /\ stable w' /\ order w' = order w.
Proof.
  intros Hst. pose proof Hst as (Hr & Hp & He & Hq).
  assert (settle o w = RunQueuedTransaction w) as -> by (destruct o; reflexivity).
  destruct (transactionQueue (ctrl w)) as [|t q] eqn:Eq.
  - rewrite (RunQueuedTransaction_empty w Hr Eq). eexists. split; [reflexivity|].
    split.
    + unfold stable. simpl. repeat split; try assumption; try apply He.
      intros _. exact Eq.
    + reflexivity.
  - rewrite (RunQueuedTransaction_next w t q Hr Eq).
    set (w0 := with_ctrl (set_transactionQueue q) (with_ctrl (set_currentTrans None) w)).
    assert (Hr0 : running (ctrl w0) = true) by exact Hr.
    assert (Hc0 : currentTrans (ctrl w0) = None) by reflexivity.
    pose proof (RunTransaction_starts t w0 Hr0 Hc0) as Hs. cbv zeta in Hs.
    rewrite (RunTransaction_idle t w0 Hr0 Hc0) in *.
    match goal with |- context [exec_calls ?cs ?w1] =>
      destruct (exec_calls_returns cs w1) as [w' E]
    end.
    { destruct He as [_ He]. split; simpl; assumption. }
    rewrite E in *. simpl in Hs.
    destruct Hs as (a1 & a2 & a3 & a4 & a5 & tr & a6 & a7).
    exists w'. split; [reflexivity|]. split.
    + unfold stable. rewrite a1, a2, a3. repeat split; try assumption.
      * unfold events_ok in *. rewrite a5. apply He.
      * unfold events_ok in *. rewrite a5. apply He.
      * unfold events_ok in *. rewrite a5. apply He.
      * discriminate.
    + unfold order. rewrite a4, a6, started_app, Eq. simpl.
      rewrite a7, <- app_assoc. reflexivity.
Qed.







(** ** Inbound bytes *)

Lemma RunTransaction_trace t w :
  exists tr, trace (world_of (RunTransaction t w)) = trace w ++ tr.
Proof.
  destruct (running (ctrl w)) eqn:Hr.
  - destruct (currentTrans (ctrl w)) as [c|] eqn:Hc.
    + rewrite (RunTransaction_busy t w c Hr Hc). exists []. simpl.
      rewrite app_nil_r. reflexivity.
    + destruct (RunTransaction_starts t w Hr Hc) as (_ & _ & _ & _ & _ & tr & E & _).
      rewrite E. eexists. reflexivity.
  - rewrite (RunTransaction_not_running t w Hr). exists []. simpl.
    rewrite app_nil_r. reflexivity.
Qed.

Lemma offer_trace t (data : list byte) w :
  exists tr, trace (world_of (offer t data w)) = trace w ++ EHandleMessage t data :: tr.
Proof.
  unfold offer. destruct (handleMessage t data) as [[t' used] calls].
  unfold bind, update, emit, ret.
  match goal with |- context [exec_calls ?cs ?w0] =>
    pose proof (exec_calls_frame cs w0) as (_ & _ & _ & _ & _ & _ & tr & E & _);
    destruct (exec_calls cs w0) as [[] w1|e w1]
  end; simpl in *; rewrite E, <- app_assoc; exists tr; reflexivity.
Qed.

Lemma SerialRead_offers (b : byte) (rest : list byte) t w :
  currentTrans (ctrl w) = Some t ->
  exists tr, trace (world_of (SerialRead (b :: rest) w))
             = trace w ++ EHandleMessage t (b :: rest) :: tr.
Proof.
  intros Hc. destruct (offer_trace t (b :: rest) w) as [tr E].
  unfold SerialRead, bind, offered. rewrite Hc.
  destruct (offer t (b :: rest) w) as [used w1|e w1]; simpl in *.
  - destruct used; simpl; [exists tr; exact E|].
    match goal with |- context [world_of (?k w1)] =>
      assert (exists tr', trace (world_of (k w1)) = trace w1 ++ tr') as [tr' E']
    end.
    { destruct (b =? POLL_REQUEST); [apply RunTransaction_trace|].
      destruct (b =? POLL_POWER_FAIL); [apply RunTransaction_trace|].
      destruct (b =? POLL_EEPROM_ADDRESS); [apply RunTransaction_trace|].
      exists []. simpl. rewrite app_nil_r. reflexivity. }
    rewrite E', E, <- app_assoc. eexists. reflexivity.
  - exists tr. exact E.
Qed.

(** The three-way test on the leading byte. *)
Lemma poll_dispatch (b : byte) (k1 k2 k3 k4 : M unit) :
  markers_distinct ->
  let k := if b =? POLL_REQUEST then k1
           else if b =? POLL_POWER_FAIL then k2
           else if b =? POLL_EEPROM_ADDRESS then k3
           else k4 in
  (b = POLL_REQUEST -> k = k1) /\
  (b = POLL_POWER_FAIL -> k = k2) /\
  (b = POLL_EEPROM_ADDRESS -> k = k3) /\
  (b <> POLL_REQUEST -> b <> POLL_POWER_FAIL -> b <> POLL_EEPROM_ADDRESS -> k = k4).
Proof.
  intros (H12 & H13 & H23). cbv zeta. repeat split.
  - intros ->. rewrite Z.eqb_refl. reflexivity.
  - intros ->. rewrite (proj2 (Z.eqb_neq _ _) (not_eq_sym H12)), Z.eqb_refl.
    reflexivity.
  - intros ->. rewrite (proj2 (Z.eqb_neq _ _) (not_eq_sym H13)),
      (proj2 (Z.eqb_neq _ _) (not_eq_sym H23)), Z.eqb_refl. reflexivity.
  - intros N1 N2 N3.
    rewrite (proj2 (Z.eqb_neq _ _) N1), (proj2 (Z.eqb_neq _ _) N2),
      (proj2 (Z.eqb_neq _ _) N3). reflexivity.
Qed.

(** C3. [read(data)]: an empty chunk changes nothing.  A chunk [b :: rest]
    is first handed to the current transaction, if there is one: its
    [handleMessage] is the next call made.  If the transaction takes the
    chunk, that is all.  If it declines, or if there is none, the leading
    byte decides: a poll request submits one [PollResponse] built on the
    chunk, a power-fail marker one [SetClock], an eeprom-address marker
    one [EepromAddress] built on the chunk, and any other byte nothing; on
    an idle engine that last case leaves the world as it was and does not
    throw.  (The markers are assumed to be three different bytes.) *)
Theorem SerialRead_routing (data : list byte) w :
  markers_distinct ->
  (data = [] -> SerialRead data w = Ok tt w) /\
  (forall b rest, data = b :: rest ->
     (forall t, currentTrans (ctrl w) = Some t ->
        (exists tr, trace (world_of (SerialRead data w))
                    = trace w ++ EHandleMessage t data :: tr) /\
        (snd (fst (handleMessage t data)) = true ->
           SerialRead data w = (let* _ := offer t data in ret tt) w)) /\
     (declines w data ->
        (b = POLL_REQUEST ->
           SerialRead data w =
             (let* _ := offered data in RunTransaction (PollResponse data)) w) /\
        (b = POLL_POWER_FAIL ->
           SerialRead data w =
             (let* _ := offered data in RunTransaction SetClock) w) /\
        (b = POLL_EEPROM_ADDRESS ->
           SerialRead data w =
             (let* _ := offered data in RunTransaction (EepromAddress data)) w) /\
        (b <> POLL_REQUEST -> b <> POLL_POWER_FAIL -> b <> POLL_EEPROM_ADDRESS ->
           SerialRead data w = (let* _ := offered data in ret tt) w)) /\
     (currentTrans (ctrl w) = None ->
        (b = POLL_REQUEST ->
           SerialRead data w = RunTransaction (PollResponse data) w) /\
        (b = POLL_POWER_FAIL ->
           SerialRead data w = RunTransaction SetClock w) /\
        (b = POLL_EEPROM_ADDRESS ->
           SerialRead data w = RunTransaction (EepromAddress data) w) /\
        (b <> POLL_REQUEST -> b <> POLL_POWER_FAIL -> b <> POLL_EEPROM_ADDRESS ->
           SerialRead data w = Ok tt w))).
Proof.
  intros Hm. split; [intros ->; reflexivity|].
  intros b rest ->.
  pose proof (poll_dispatch b (RunTransaction (PollResponse (b :: rest)))
                (RunTransaction SetClock)
                (RunTransaction (EepromAddress (b :: rest))) (ret tt) Hm) as Hd.
  cbv zeta in Hd. destruct Hd as (D1 & D2 & D3 & D4).
  split; [|split].
  - intros t Hc. split.
    + apply SerialRead_offers, Hc.
    + intros Hu. unfold SerialRead, bind, offered. rewrite Hc. unfold offer in *.
      destruct (handleMessage t (b :: rest)) as [[t' used] calls]. simpl in Hu.
      subst used. unfold bind, update, emit, ret.
      destruct (exec_calls calls _); reflexivity.
  - intros Hdec.
    assert (Hgen : forall k : M unit,
      (fun w0 => match offered (b :: rest) w0 with
                 | Ok used w1 => (if negb used then k else ret tt) w1
                 | Throw e w1 => Throw e w1
                 end) w = (let* _ := offered (b :: rest) in k) w).
    { intros k. unfold bind, offered, declines in *.
      destruct (currentTrans (ctrl w)) as [t|]; [|reflexivity].
      unfold offer in *. destruct (handleMessage t (b :: rest)) as [[t' used] calls].
      simpl in Hdec. subst used. unfold bind, update, emit, ret.
      destruct (exec_calls calls _); reflexivity. }
    repeat split.
    + intros Hb. etransitivity; [exact (Hgen _)|]. rewrite (D1 Hb). reflexivity.
    + intros Hb. etransitivity; [exact (Hgen _)|]. rewrite (D2 Hb). reflexivity.
    + intros Hb. etransitivity; [exact (Hgen _)|]. rewrite (D3 Hb). reflexivity.
    + intros N1 N2 N3. etransitivity; [exact (Hgen _)|]. rewrite (D4 N1 N2 N3).
      reflexivity.
  - intros Hc. unfold SerialRead, bind, offered. rewrite Hc. simpl. repeat split.
    + intros Hb. rewrite (D1 Hb). reflexivity.
    + intros Hb. rewrite (D2 Hb). reflexivity.
    + intros Hb. rewrite (D3 Hb). reflexivity.
    + intros N1 N2 N3. rewrite (D4 N1 N2 N3). reflexivity.
Qed.

(** ** Timers *)

Lemma one_timer_same w w' :
  pendingTimers w' = pendingTimers w -> timer (ctrl w') = timer (ctrl w) ->
  one_timer w -> one_timer w'.
Proof. unfold one_timer. intros -> ->. exact id. Qed.

Lemma call_one_timer (v : jsval) (args : list jsval) w :
  one_timer w -> one_timer (world_of (call v args w)).
Proof. destruct v; apply one_timer_same; reflexivity. Qed.

Lemma CancelTimer_clears w :
  one_timer w ->
  exists w', CancelTimer w = Ok tt w' /\ pendingTimers w' = [] /\
             timer (ctrl w') = None /\ serial (ctrl w') = serial (ctrl w) /\
             freshTimer w' = freshTimer w.
Proof.
  intros H. unfold CancelTimer.
  destruct (timer (ctrl w)) as [h|] eqn:Ht.
  - eexists. split; [reflexivity|]. simpl. repeat split.
    destruct H as [->|(h' & -> & E)]; [reflexivity|].
    rewrite Ht in E. injection E as <-. simpl. rewrite Nat.eqb_refl. reflexivity.
  - exists w. destruct H as [E|(h' & _ & E)]; [|rewrite Ht in E; discriminate].
    repeat split; assumption.
Qed.

Lemma exec_call_one_timer (c : CtrlCall) w :
  (forall data ms, c <> CallWrite data (Some ms)) ->
  one_timer w -> one_timer (world_of (exec_call c w)).
Proof.
  intros Hc H. destruct c as [data [ms|] | | f h l u | s]; simpl.
  - destruct (Hc data ms eq_refl).
  - unfold SerialWrite. destruct (serial (ctrl w)); revert H;
      apply one_timer_same; reflexivity.
  - destruct (CancelTimer_clears w H) as (w' & -> & E & _). left. exact E.
  - unfold NotifyUnitStatus. destruct (events (ctrl w) !! "unitStatus") as [cb|];
      [destruct (defined cb)|]; try exact H. apply call_one_timer, H.
  - unfold NotifyStatus. destruct (events (ctrl w) !! "status") as [cb|];
      [destruct (defined cb)|]; try exact H. apply call_one_timer, H.
Qed.

Lemma cancel_write_one_timer (data : list byte) (timeout : option Z) w :
  one_timer w ->
  one_timer (world_of ((let* _ := CancelTimer in SerialWrite data timeout) w)).
Proof.
  intros H. destruct (CancelTimer_clears w H) as (w1 & E1 & P1 & T1 & _).
  unfold bind. rewrite E1. unfold SerialWrite.
  destruct (serial (ctrl w1)) as [p|]; simpl.
  - destruct timeout as [ms|]; simpl.
    + right. exists (freshTimer w1). rewrite P1. split; reflexivity.
    + left. exact P1.
  - left. exact P1.
Qed.

Lemma exec_calls_one_timer cs w :
  disciplined cs = true -> one_timer w -> one_timer (world_of (exec_calls cs w)).
Proof.
  remember (length cs) as n eqn:Hn. revert cs w Hn.
  induction n as [n IH] using lt_wf_ind. intros cs w Hn Hd H.
  destruct cs as [|c cs]; [exact H|].
  assert (Hskip : forall w0, disciplined cs = true -> one_timer w0 ->
                   one_timer (world_of (exec_calls cs w0))).
  { intros w0. apply (IH (length cs)); [subst n; simpl; lia | reflexivity]. }
  assert (Hone : (forall data ms, c <> CallWrite data (Some ms)) ->
                 disciplined cs = true ->
                 one_timer (world_of (exec_calls (c :: cs) w))).
  { intros Hc Hd'. simpl. unfold bind.
    pose proof (exec_call_one_timer c w Hc H) as H1.
    destruct (exec_call c w) as [[] w1|e w1]; simpl in H1; [|exact H1].
    apply Hskip; assumption. }
  destruct c as [data [ms|] | | f h l u | s]; simpl in Hd.
  - discriminate.
  - apply Hone; [discriminate | exact Hd].
  - destruct cs as [|c' cs']; [apply Hone; [discriminate | reflexivity]|].
    destruct c' as [data timeout | | f h l u | s];
      try (apply Hone; [discriminate | exact Hd]).
    change (exec_calls (CallCancelTimer :: CallWrite data timeout :: cs') w)
      with (bind CancelTimer
              (fun _ => bind (SerialWrite data timeout) (fun _ => exec_calls cs')) w).
    rewrite <- bind_assoc.
    pose proof (cancel_write_one_timer data timeout w H) as H2.
    set (m := bind CancelTimer (fun _ => SerialWrite data timeout)) in *.
    unfold bind at 1. destruct (m w) as [[] w2|e w2]; simpl in H2; [|exact H2].
    apply (IH (length cs')); [subst n; simpl; lia | reflexivity | exact Hd | exact H2].
  - apply Hone; [discriminate | exact Hd].
  - apply Hone; [discriminate | exact Hd].
Qed.

Lemma RunTransaction_one_timer t w :
  disciplined_transactions ->
  one_timer w -> one_timer (world_of (RunTransaction t w)).
Proof.
  intros [Hrun _] H. unfold RunTransaction.
  destruct (running (ctrl w)); [|exact H].
  destruct (currentTrans (ctrl w)); [exact H|].
  specialize (Hrun t). destruct (run t) as [t' calls]. simpl in Hrun.
  unfold bind, update, emit. apply exec_calls_one_timer; [exact Hrun | exact H].
Qed.

Lemma offer_one_timer t (data : list byte) w :
  disciplined_transactions ->
  one_timer w -> one_timer (world_of (offer t data w)).
Proof.
  intros [_ Hhm] H. unfold offer. specialize (Hhm t data).
  destruct (handleMessage t data) as [[t' used] calls]. simpl in Hhm.
  unfold bind, update, emit, ret.
  match goal with |- context [exec_calls ?cs ?w0] =>
    pose proof (exec_calls_one_timer cs w0 Hhm H) as H1;
    destruct (exec_calls cs w0) as [[] w1|e w1]
  end; exact H1.
Qed.

Lemma step_one_timer (i : input) w :
  disciplined_transactions ->
  one_timer w -> one_timer (world_of (step i w)).
Proof.
  intros Hd H. destruct i; simpl.
  - unfold SetEvent. destruct (events (ctrl w) !! event); [|exact H].
    destruct (negb _); exact H.
  - unfold bind, Start. simpl. destruct (negb (running (ctrl w))); exact H.
  - unfold Stop, serial_close. destruct (currentTrans (ctrl w)); [exact H|].
    destruct (serial (ctrl w)); exact H.
  - apply RunTransaction_one_timer; assumption.
  - unfold SerialRead. destruct data as [|b rest]; [exact H|]. unfold bind.
    assert (H1 : one_timer (world_of (offered (b :: rest) w))).
    { unfold offered. destruct (currentTrans (ctrl w));
        [apply offer_one_timer; assumption | exact H]. }
    destruct (offered (b :: rest) w) as [used w1|e w1]; simpl in H1; [|exact H1].
    destruct used; simpl; [exact H1|].
    destruct (b =? POLL_REQUEST); [apply RunTransaction_one_timer; assumption|].
    destruct (b =? POLL_POWER_FAIL); [apply RunTransaction_one_timer; assumption|].
    destruct (b =? POLL_EEPROM_ADDRESS); [apply RunTransaction_one_timer; assumption|].
    exact H1.
  - exact H.
  - unfold Stopped, bind, update.
    match goal with |- context [events ?c !! "close"] =>
      destruct (events c !! "close") as [cb|]; [destruct (truthy cb)|]
    end; try exact H. apply call_one_timer, H.
  - assert (settle o = RunQueuedTransaction) as -> by (destruct o; reflexivity).
    unfold RunQueuedTransaction, bind, update. simpl.
    destruct (running (ctrl w)).
    + destruct (transactionQueue (ctrl w)) as [|t q]; [exact H|].
      apply RunTransaction_one_timer; [assumption | exact H].
    + unfold serial_close. simpl. destruct (serial (ctrl w)); exact H.
  - unfold fire. destruct (existsb (Nat.eqb h) (pendingTimers w)); [|exact H].
    match goal with |- context [Timeout ?w0] =>
      assert (H0 : one_timer w0)
    end.
    { destruct H as [E|(h' & E & T)]; [left; simpl; rewrite E; reflexivity|].
      simpl. rewrite E. simpl. destruct (Nat.eqb h' h); simpl.
      - left. reflexivity.
      - right. exists h'. split; [reflexivity | exact T]. }
    unfold Timeout.
    match goal with |- context [currentTrans ?c] =>
      destruct (currentTrans c) as [t|]; [|exact H0]
    end.
    unfold bind.
    match goal with |- context [offer t [] ?w0] =>
      pose proof (offer_one_timer t [] w0 Hd H0) as H1;
      destruct (offer t [] w0) as [u w1|e w1]
    end; exact H1.
Qed.

Lemma steps_one_timer (l : list input) w :
  disciplined_transactions ->
  one_timer w -> one_timer (world_of (steps l w)).
Proof.
  intros Hd. revert w. induction l as [|i l IH]; intros w H; [exact H|].
  simpl. unfold bind. pose proof (step_one_timer i w Hd H) as H1.
  destruct (step i w) as [[] w1|e w1]; simpl in H1; [apply IH|]; exact H1.
Qed.

(** C4, as the code has it.  [write] cancels nothing: a write with a
    timeout arms a fresh timer next to those already armed and stores its
    handle in [timer]; only [cancelTimer] clears the timer whose handle is
    in [timer].  When at most one timer is armed and [timer] holds its
    handle, [cancelTimer] followed by a write with a timeout leaves exactly
    the new timer armed.  So, when the transaction module calls
    [cancelTimer] right before each write with a timeout, at most one
    timer is armed after any sequence of turns, and [timer] holds its
    handle. *)
Theorem CancelTimer_before_SerialWrite :
  (forall w (data : list byte) (ms : Z) p,
     serial (ctrl w) = Some p ->
     exists w', SerialWrite data (Some ms) w = Ok tt w' /\
                pendingTimers w' = pendingTimers w ++ [freshTimer w] /\
                timer (ctrl w') = Some (freshTimer w)) /\
  (forall w (data : list byte) (ms : Z) p,
     serial (ctrl w) = Some p -> one_timer w ->
     exists w', (let* _ := CancelTimer in SerialWrite data (Some ms)) w = Ok tt w' /\
                pendingTimers w' = [freshTimer w] /\
                timer (ctrl w') = Some (freshTimer w)) /\
  (disciplined_transactions ->
   forall (l : list input) w,
     one_timer w ->
     one_timer (world_of (steps l w)) /\
     (length (pendingTimers (world_of (steps l w))) <= 1)%nat).
Proof.
  split; [|split].
  - intros w data ms p Hp. unfold SerialWrite. rewrite Hp.
    eexists. split; [reflexivity|]. split; reflexivity.
  - intros w data ms p Hp H.
    destruct (CancelTimer_clears w H) as (w1 & E1 & P1 & T1 & S1 & F1).
    unfold bind. rewrite E1. unfold SerialWrite. rewrite S1, Hp.
    eexists. split; [reflexivity|]. simpl. rewrite P1, F1. split; reflexivity.
  - intros Hd l w H. pose proof (steps_one_timer l w Hd H) as H1.
    split; [exact H1|]. destruct H1 as [->|(h & -> & _)]; simpl; lia.
Qed.

(** ** Stopping *)

Lemma offer_frame t (data : list byte) w :
  let w' := world_of (offer t data w) in
  serial (ctrl w') = serial (ctrl w) /\
  running (ctrl w') = running (ctrl w) /\
  transactionQueue (ctrl w') = transactionQueue (ctrl w) /\
  events (ctrl w') = events (ctrl w) /\
  started (trace w') = started (trace w).
Proof.
  unfold offer. destruct (handleMessage t data) as [[t' used] calls].
  unfold bind, update, emit, ret.
  match goal with |- context [exec_calls ?cs ?w0] =>
    pose proof (exec_calls_frame cs w0) as Hf;
    pose proof (callback_frame_started _ _ Hf) as Hs;
    destruct Hf as (a1 & a2 & _ & a4 & a5 & _);
    destruct (exec_calls cs w0) as [[] w1|e w1]
  end; simpl in *; rewrite a1, a2, a4, a5, Hs, started_app; simpl;
    rewrite app_nil_r; repeat split.
Qed.

Lemma RunTransaction_running t w :
  running (ctrl (world_of (RunTransaction t w))) = running (ctrl w).
Proof.
  destruct (running (ctrl w)) eqn:Hr.
  - destruct (currentTrans (ctrl w)) as [c|] eqn:Hc.
    + rewrite (RunTransaction_busy t w c Hr Hc). exact Hr.
    + apply (RunTransaction_starts t w Hr Hc).
  - rewrite (RunTransaction_not_running t w Hr). exact Hr.
Qed.

(** While the engine is not running, no turn other than a call of [start]
    starts a transaction, touches the queue or sets [running]. *)
Lemma step_not_running (i : input) w :
  no_start i = true -> running (ctrl w) = false ->
  let w' := world_of (step i w) in
  running (ctrl w') = false /\
  started (trace w') = started (trace w) /\
  transactionQueue (ctrl w') = transactionQueue (ctrl w).
Proof.
  intros Hi Hr. destruct i; try discriminate Hi; simpl.
  - unfold SetEvent. destruct (events (ctrl w) !! event); [|tidy].
    destruct (negb _); tidy.
  - unfold Stop, serial_close. destruct (currentTrans (ctrl w)); [tidy|].
    destruct (serial (ctrl w)); simpl; rewrite ?started_app, ?app_nil_r; tidy.
  - rewrite (RunTransaction_not_running t w Hr). tidy.
  - unfold SerialRead. destruct data as [|b rest]; [tidy|]. unfold bind.
    assert (H1 : let w1 := world_of (offered (b :: rest) w) in
                 running (ctrl w1) = false /\
                 started (trace w1) = started (trace w) /\
                 transactionQueue (ctrl w1) = transactionQueue (ctrl w)).
    { unfold offered. destruct (currentTrans (ctrl w)) as [t|]; [|tidy].
      destruct (offer_frame t (b :: rest) w) as (_ & a2 & a3 & _ & a5).
      cbv zeta. rewrite a2, a3, a5. tidy. }
    cbv zeta in H1.
    destruct (offered (b :: rest) w) as [used w1|e w1]; simpl in H1; [|exact H1].
    destruct H1 as (Hr1 & H1).
    destruct used; simpl; [tidy|].
    destruct (b =? POLL_REQUEST);
      [rewrite (RunTransaction_not_running _ w1 Hr1); tidy|].
    destruct (b =? POLL_POWER_FAIL);
      [rewrite (RunTransaction_not_running _ w1 Hr1); tidy|].
    destruct (b =? POLL_EEPROM_ADDRESS);
      [rewrite (RunTransaction_not_running _ w1 Hr1); tidy|].
    tidy.
  - rewrite started_app, app_nil_r. tidy.
  - unfold Stopped, bind, update.
    match goal with |- context [events ?c !! "close"] =>
      destruct (events c !! "close") as [cb|]; [destruct (truthy cb)|]
    end.
    + destruct cb; simpl; rewrite ?started_app, ?app_nil_r; tidy.
    + simpl. tidy.
    + simpl. tidy.
  - assert (settle o = RunQueuedTransaction) as -> by (destruct o; reflexivity).
    unfold RunQueuedTransaction, bind, update, serial_close. simpl. rewrite Hr.
    destruct (serial (ctrl w)); simpl; rewrite ?started_app, ?app_nil_r; tidy.
  - unfold fire. destruct (existsb (Nat.eqb h) (pendingTimers w)); [|tidy].
    unfold Timeout. simpl.
    destruct (currentTrans (ctrl w)) as [t|]; [|tidy]. unfold bind.
    match goal with |- context [offer t [] ?w0] =>
      destruct (offer_frame t [] w0) as (_ & a2 & a3 & _ & a5);
      destruct (offer t [] w0) as [u w1|e w1]
    end; simpl in *; rewrite a2, a3, a5; tidy.
Qed.

Lemma steps_not_running (l : list input) w :
  forallb no_start l = true -> running (ctrl w) = false ->
  let w' := world_of (steps l w) in
  running (ctrl w') = false /\
  started (trace w') = started (trace w) /\
  transactionQueue (ctrl w') = transactionQueue (ctrl w).
Proof.
  revert w. induction l as [|i l IH]; intros w Hl Hr; [tidy|].
  simpl in Hl. apply andb_prop in Hl as [Hi Hl].
  destruct (step_not_running i w Hi Hr) as (a1 & a2 & a3).
  simpl. unfold bind. destruct (step i w) as [[] w1|e w1]; simpl in *.
  - destruct (IH w1 Hl a1) as (b1 & b2 & b3). rewrite b1, b2, b3, a2, a3. tidy.
  - tidy.
Qed.

(** C5, as the code has it.  [stop()] with a transaction [t] in flight
    only clears [running]: [t] stays current, nothing is called on it, and
    the chunks that arrive are still handed to it.  From then on, until
    [start] is called again, no turn starts a transaction or changes the
    queue, and the completion of [t] clears the current slot and closes
    the port.  The transactions that wait are not removed: they are still
    in the queue after the port is closed.  [stop()] with nothing in
    flight closes the port at once and changes nothing else. *)
Theorem Stop_graceful w :
  (forall t, currentTrans (ctrl w) = Some t ->
     Stop w = Ok tt (with_ctrl (set_running false) w) /\
     currentTrans (ctrl (world_of (Stop w))) = Some t /\
     trace (world_of (Stop w)) = trace w /\
     (forall b rest, exists tr,
        trace (world_of (SerialRead (b :: rest) (world_of (Stop w))))
        = trace w ++ EHandleMessage t (b :: rest) :: tr) /\
     (forall l : list input, forallb no_start l = true ->
        let w' := world_of (steps l (world_of (Stop w))) in
        running (ctrl w') = false /\
        started (trace w') = started (trace w) /\
        transactionQueue (ctrl w') = transactionQueue (ctrl w)) /\
     (forall (o : outcome) p, serial (ctrl w) = Some p ->
        settle o (world_of (Stop w)) =
          Ok tt {| ctrl := {| serial := Some p;
                              running := false;
                              currentTrans := None;
                              transactionQueue := transactionQueue (ctrl w);
                              timer := timer (ctrl w);
                              events := events (ctrl w) |};
                   pendingTimers := pendingTimers w;
                   freshTimer := freshTimer w;
                   freshPort := freshPort w;
                   trace := trace w ++ [ESerialClose p] |})) /\
  (currentTrans (ctrl w) = None -> forall p, serial (ctrl w) = Some p ->
     Stop w = Ok tt {| ctrl := ctrl w;
                       pendingTimers := pendingTimers w;
                       freshTimer := freshTimer w;
                       freshPort := freshPort w;
                       trace := trace w ++ [ESerialClose p] |}).
Proof.
  split.
  - intros t Hc.
    assert (E : Stop w = Ok tt (with_ctrl (set_running false) w))
      by (unfold Stop; rewrite Hc; reflexivity).
    rewrite E. simpl world_of.
    split; [reflexivity|]. split; [exact Hc|]. split; [reflexivity|]. split; [|split].
    + intros b rest.
      apply (SerialRead_offers b rest t (with_ctrl (set_running false) w)). exact Hc.
    + intros l Hl.
      apply (steps_not_running l (with_ctrl (set_running false) w) Hl). reflexivity.
    + intros o p Hp.
      assert (settle o = RunQueuedTransaction) as -> by (destruct o; reflexivity).
      rewrite (RunQueuedTransaction_not_running
                 (with_ctrl (set_running false) w) p eq_refl Hp).
      unfold with_trace, with_ctrl, set_currentTrans. simpl. rewrite Hp. reflexivity.
  - intros Hc p Hp. unfold Stop, serial_close. rewrite Hc, Hp. reflexivity.
Qed.

(** ** The close signal *)

(** C6, as the code has it.  The handler of the port's close signal
    leaves [running] false; with a function registered for ['close'] it
    calls that function once, without arguments, and does nothing else;
    with none registered it calls nothing.  Registering [f] for ['close']
    and calling [stop()] with nothing in flight does not call [f] and
    does not change [running]: on a controller with a port it asks the
    port to close, and [f] is called, exactly once, and [running] becomes
    false when the close signal of the port is delivered after that; on a
    controller without a port [stop()] throws. *)
Theorem Stopped_close_signal w :
  running (ctrl (world_of (Stopped w))) = false /\
  (forall f, events (ctrl w) !! "close" = Some (JFun f) ->
     Stopped w = Ok tt (with_trace [ECall f []] (with_ctrl (set_running false) w)) /\
     invocations f (trace (world_of (Stopped w))) = S (invocations f (trace w))) /\
  (events (ctrl w) !! "close" = Some JUndefined ->
     Stopped w = Ok tt (with_ctrl (set_running false) w)) /\
  (forall f p,
     is_Some (events (ctrl w) !! "close") ->
     serial (ctrl w) = Some p -> currentTrans (ctrl w) = None ->
     exists w1 w',
       steps [InOn "close" (JFun f); InStop] w = Ok tt w1 /\
       running (ctrl w1) = running (ctrl w) /\
       trace w1 = trace w ++ [ESerialClose p] /\
       invocations f (trace w1) = invocations f (trace w) /\
       Stopped w1 = Ok tt w' /\
       steps [InOn "close" (JFun f); InStop; InClose] w = Ok tt w' /\
       running (ctrl w') = false /\
       trace w' = trace w ++ [ESerialClose p; ECall f []] /\
       invocations f (trace w') = S (invocations f (trace w))) /\
  (forall f,
     is_Some (events (ctrl w) !! "close") ->
     serial (ctrl w) = None -> currentTrans (ctrl w) = None ->
     steps [InOn "close" (JFun f); InStop] w
     = Throw (TypeError "this.serial.close is not a function")
         (world_of (SetEvent "close" (JFun f) w)) /\
     running (ctrl (world_of (steps [InOn "close" (JFun f); InStop] w)))
     = running (ctrl w) /\
     trace (world_of (steps [InOn "close" (JFun f); InStop] w)) = trace w).
Proof.
  split; [|split; [|split; [|split]]].
  - unfold Stopped, bind, update.
    match goal with |- context [events ?c !! "close"] =>
      destruct (events c !! "close") as [cb|]; [destruct (truthy cb)|]
    end; try reflexivity. destruct cb; reflexivity.
  - intros f Hf.
    assert (E : Stopped w =
                Ok tt (with_trace [ECall f []] (with_ctrl (set_running false) w))).
    { unfold Stopped, bind, update. simpl. rewrite Hf. reflexivity. }
    rewrite E. split; [reflexivity|]. simpl.
    rewrite invocations_app. simpl. rewrite Nat.eqb_refl. lia.
  - intros Hf. unfold Stopped, bind, update. simpl. rewrite Hf. reflexivity.
  - intros f p [v Hv] Hp Hc.
    assert (E1 : steps [InOn "close" (JFun f); InStop] w =
                 Ok tt (with_trace [ESerialClose p]
                          (with_ctrl (fun c => set_events
                                        (<["close" := JFun f]> (events c)) c) w))).
    { simpl steps. unfold bind, SetEvent, update. rewrite Hv. simpl.
      unfold Stop, serial_close. simpl. rewrite Hc, Hp. reflexivity. }
    assert (E2 : steps [InOn "close" (JFun f); InStop; InClose] w =
                 Stopped (with_trace [ESerialClose p]
                            (with_ctrl (fun c => set_events
                                          (<["close" := JFun f]> (events c)) c) w))).
    { simpl steps. unfold bind at 1. unfold SetEvent at 1. rewrite Hv. simpl.
      unfold bind at 1. unfold Stop at 1. simpl. rewrite Hc.
      unfold serial_close at 1. simpl. rewrite Hp. simpl.
      unfold bind at 1.
      match goal with |- context [Stopped ?w0] => destruct (Stopped w0) as [[] w2|e w2] end;
        reflexivity. }
    assert (E3 : Stopped (with_trace [ESerialClose p]
                            (with_ctrl (fun c => set_events
                                          (<["close" := JFun f]> (events c)) c) w))
                 = Ok tt (with_trace [ECall f []]
                            (with_ctrl (set_running false)
                               (with_trace [ESerialClose p]
                                  (with_ctrl (fun c => set_events
                                     (<["close" := JFun f]> (events c)) c) w))))).
    { unfold Stopped, bind, update. simpl. rewrite lookup_insert_eq. reflexivity. }
    rewrite E1, E2, E3.
    eexists. eexists. split; [reflexivity|]. simpl.
    split; [reflexivity|]. split; [reflexivity|].
    split; [rewrite invocations_app; simpl; lia|].
    split; [exact E3|]. split; [reflexivity|]. simpl. split; [reflexivity|].
    split; [rewrite <- app_assoc; reflexivity|].
    rewrite !invocations_app. simpl. rewrite Nat.eqb_refl. lia.
  - intros f [v Hv] Hp Hc.
    assert (E : steps [InOn "close" (JFun f); InStop] w
                = Throw (TypeError "this.serial.close is not a function")
                    (world_of (SetEvent "close" (JFun f) w))).
    { simpl steps. unfold bind, SetEvent, update. rewrite Hv. simpl.
      unfold Stop, serial_close. simpl. rewrite Hc, Hp. reflexivity. }
    rewrite E. split; [reflexivity|]. simpl.
    unfold SetEvent, update. rewrite Hv. simpl. split; reflexivity.
Qed.

(** ** Notifications *)

(** C7, as the code has it.  With a function [f] registered for
    ['unitStatus'], the notification calls [f] once with one object whose
    fields are [units], [x10Function] and [level], and changes nothing
    else; with none registered it does nothing.  The house code handed to
    the notification has no part in what the listener receives. *)
Theorem NotifyUnitStatus_event (x10Function houseCode level units : jsval) w :
  (forall f, events (ctrl w) !! "unitStatus" = Some (JFun f) ->
     NotifyUnitStatus x10Function houseCode level units w =
       Ok tt {| ctrl := ctrl w;
                pendingTimers := pendingTimers w;
                freshTimer := freshTimer w;
                freshPort := freshPort w;
                trace := trace w ++
                  [ECall f [JObj [("units", units);
                                  ("x10Function", x10Function);
                                  ("level", level)]]] |}) /\
  (events (ctrl w) !! "unitStatus" = Some JUndefined ->
     NotifyUnitStatus x10Function houseCode level units w = Ok tt w) /\
  (forall houseCode',
     NotifyUnitStatus x10Function houseCode' level units w =
     NotifyUnitStatus x10Function houseCode level units w).
Proof.
  split; [|split].
  - intros f Hf. unfold NotifyUnitStatus. rewrite Hf. reflexivity.
  - intros Hf. unfold NotifyUnitStatus. rewrite Hf. reflexivity.
  - intros houseCode'. reflexivity.
Qed.

(** ** Registration *)

(** C8. [on(event, callBack)]: with the listener table holding the three
    keys of [EVENTS], the call throws, leaving everything as it was, when
    [event] is not one of them, and also when [callBack] is not a
    function; otherwise it returns, [callBack] is what the slot of [event]
    holds from then on, whatever it held before, and nothing else has
    changed. *)
Theorem SetEvent_register (event : string) (callBack : jsval) w :
  has_event_keys (ctrl w) ->
  (~ In event EVENTS ->
     SetEvent event callBack w = Throw (ThrowString ("Invalid event: " +:+ event)) w) /\
  (typeof callBack <> "function" ->
     exists msg, SetEvent event callBack w = Throw (ThrowString msg) w) /\
  (In event EVENTS -> typeof callBack <> "function" ->
     SetEvent event callBack w = Throw (ThrowString "Expected function for callBack.") w) /\
  (In event EVENTS -> typeof callBack = "function" ->
     SetEvent event callBack w =
       Ok tt {| ctrl := {| serial := serial (ctrl w);
                           running := running (ctrl w);
                           currentTrans := currentTrans (ctrl w);
                           transactionQueue := transactionQueue (ctrl w);
                           timer := timer (ctrl w);
                           events := <[event := callBack]> (events (ctrl w)) |};
                pendingTimers := pendingTimers w;
                freshTimer := freshTimer w;
                freshPort := freshPort w;
                trace := trace w |} /\
     let w' := world_of (SetEvent event callBack w) in
     events (ctrl w') !! event = Some callBack /\
     (forall k, k <> event -> events (ctrl w') !! k = events (ctrl w) !! k) /\
     has_event_keys (ctrl w')).
Proof.
  intros Hk.
  assert (Hnone : ~ In event EVENTS -> events (ctrl w) !! event = None).
  { intros Hn. destruct (events (ctrl w) !! event) eqn:E; [|reflexivity].
    destruct Hn. apply Hk. rewrite E. eexists. reflexivity. }
  assert (Hsome : In event EVENTS -> exists v, events (ctrl w) !! event = Some v).
  { intros Hin. apply Hk in Hin. exact Hin. }
  assert (Hbad : typeof callBack <> "function" ->
                 negb (String.eqb (typeof callBack) "function") = true).
  { intros Hn. apply negb_true_iff, String.eqb_neq, Hn. }
  split; [|split; [|split]].
  - intros Hn. unfold SetEvent. rewrite (Hnone Hn). reflexivity.
  - intros Hn. unfold SetEvent. destruct (events (ctrl w) !! event).
    + rewrite (Hbad Hn). eexists. reflexivity.
    + eexists. reflexivity.
  - intros Hin Hn. destruct (Hsome Hin) as [v Hv].
    unfold SetEvent. rewrite Hv, (Hbad Hn). reflexivity.
  - intros Hin Hf. destruct (Hsome Hin) as [v Hv].
    assert (E : SetEvent event callBack w =
                Ok tt (with_ctrl (fun c => set_events (<[event := callBack]> (events c)) c) w)).
    { unfold SetEvent. rewrite Hv, Hf. reflexivity. }
    rewrite E. split; [reflexivity|]. simpl. split; [|split].
    + apply lookup_insert_eq.
    + intros k Hne. apply lookup_insert_ne. congruence.
    + intros k. simpl. destruct (decide (event = k)) as [<-|Hne].
      * rewrite lookup_insert_eq. split; [intros _; exact Hin | eauto].
      * rewrite lookup_insert_ne by exact Hne. apply Hk.
Qed.

(** ** Starting *)

(** C9. [start(device)] returns [true], the value of [running] after the
    call.  On an engine that is not running it opens a port on [device] at
    4800 baud, subscribes to its data, error and close signals, in that
    order, keeps the port in [serial] and sets [running]; on a running
    engine it changes nothing and opens nothing.  So a second call, for
    whatever device, leaves the world of the first as it is. *)
Theorem Start_idempotent (device : string) w :
  (exists w', Start device w = Ok true w' /\ running (ctrl w') = true) /\
  (running (ctrl w) = false ->
     Start device w =
       Ok true {| ctrl := {| serial := Some (freshPort w);
                             running := true;
                             currentTrans := currentTrans (ctrl w);
                             transactionQueue := transactionQueue (ctrl w);
                             timer := timer (ctrl w);
                             events := events (ctrl w) |};
                  pendingTimers := pendingTimers w;
                  freshTimer := freshTimer w;
                  freshPort := S (freshPort w);
                  trace := trace w ++ [ENewSerialPort (freshPort w) device 4800;
                                       ESerialOn (freshPort w) "data";
                                       ESerialOn (freshPort w) "error";
                                       ESerialOn (freshPort w) "close"] |}) /\
  (running (ctrl w) = true -> Start device w = Ok true w) /\
  (forall device',
     Start device' (world_of (Start device w)) = Ok true (world_of (Start device w))).
Proof.
  assert (Hrun : running (ctrl w) = true -> Start device w = Ok true w).
  { intros Hr. unfold Start. rewrite Hr. simpl. rewrite Hr. reflexivity. }
  split; [|split; [|split]].
  - destruct (running (ctrl w)) eqn:Hr.
    + exists w. split; [apply Hrun; reflexivity | exact Hr].
    + unfold Start. rewrite Hr. simpl. eexists. split; reflexivity.
  - intros Hr. unfold Start. rewrite Hr. reflexivity.
  - exact Hrun.
  - intros device'. unfold Start at 2 3. destruct (running (ctrl w)) eqn:Hr; simpl.
    + unfold Start. rewrite Hr. simpl. rewrite Hr. reflexivity.
    + reflexivity.
Qed.

(** ** The window between [stop()] and the close signal *)

(** A turn clears [running] only if it is the close signal, or [stop()]
    with a transaction in flight. *)
Lemma step_clears_running (i : input) w :
  running (ctrl w) = true ->
  running (ctrl (world_of (step i w))) = false ->
  i = InClose \/ (i = InStop /\ currentTrans (ctrl w) <> None).
Proof.
  intros Hr H. destruct i; simpl in H.
  - exfalso. unfold SetEvent in H. destruct (events (ctrl w) !! event);
      [destruct (negb _)|]; simpl in H; congruence.
  - exfalso. unfold bind, Start in H. rewrite Hr in H. simpl in H. congruence.
  - unfold Stop, serial_close in H. destruct (currentTrans (ctrl w)).
    + right. split; [reflexivity | discriminate].
    + exfalso. destruct (serial (ctrl w)); simpl in H; congruence.
  - exfalso. rewrite RunTransaction_running in H. congruence.
  - exfalso. unfold SerialRead in H. destruct data as [|b rest];
      [simpl in H; congruence|]. unfold bind in H.
    assert (H1 : running (ctrl (world_of (offered (b :: rest) w))) = true).
    { unfold offered. destruct (currentTrans (ctrl w)) as [t|]; [|exact Hr].
      destruct (offer_frame t (b :: rest) w) as (_ & a2 & _). rewrite a2. exact Hr. }
    destruct (offered (b :: rest) w) as [used w1|e w1]; simpl in H1, H; [|congruence].
    destruct used; simpl in H; [congruence|].
    destruct (b =? POLL_REQUEST);
      [rewrite RunTransaction_running in H; congruence|].
    destruct (b =? POLL_POWER_FAIL);
      [rewrite RunTransaction_running in H; congruence|].
    destruct (b =? POLL_EEPROM_ADDRESS);
      [rewrite RunTransaction_running in H; congruence|].
    simpl in H. congruence.
  - exfalso. congruence.
  - left. reflexivity.
  - exfalso. assert (settle o = RunQueuedTransaction) as E by (destruct o; reflexivity).
    rewrite E in H. unfold RunQueuedTransaction, bind, update in H. simpl in H.
    rewrite Hr in H. destruct (transactionQueue (ctrl w)) as [|t q].
    + simpl in H. congruence.
    + rewrite RunTransaction_running in H. simpl in H. congruence.
  - exfalso. unfold fire in H.
    destruct (existsb (Nat.eqb h) (pendingTimers w)); [|simpl in H; congruence].
    unfold Timeout in H. simpl in H.
    destruct (currentTrans (ctrl w)) as [t|]; [|simpl in H; congruence].
    unfold bind in H.
    match type of H with context [offer t [] ?w0] =>
      destruct (offer_frame t [] w0) as (_ & a2 & _);
      destruct (offer t [] w0) as [u w1|e w1]
    end; simpl in *; congruence.
Qed.

(** C10, as the code has it.  On a running engine with a port and nothing
    in flight, [stop()] asks the port to close and changes no field of the
    controller, so [running] is still true; a transaction submitted next
    is made current and started; [running] becomes false when the close
    signal arrives.  [running] is cleared in two places: by the handler of
    the close signal, and by [stop()] when a transaction is in flight; no
    other turn clears it. *)
Theorem Stop_idle_keeps_running w p :
  running (ctrl w) = true -> currentTrans (ctrl w) = None ->
  serial (ctrl w) = Some p ->
  Stop w = Ok tt (with_trace [ESerialClose p] w) /\
  ctrl (world_of (Stop w)) = ctrl w /\
  running (ctrl (world_of (Stop w))) = true /\
  (forall t,
     let w1 := world_of (RunTransaction t (world_of (Stop w))) in
     currentTrans (ctrl w1) = Some (fst (run t)) /\
     running (ctrl w1) = true /\
     started (trace w1) = started (trace w) ++ [t]) /\
  running (ctrl (world_of (Stopped (world_of (Stop w))))) = false /\
  (forall (i : input) w0,
     running (ctrl w0) = true ->
     running (ctrl (world_of (step i w0))) = false ->
     i = InClose \/ (i = InStop /\ currentTrans (ctrl w0) <> None)).
Proof.
  intros Hr Hc Hp.
  assert (E : Stop w = Ok tt (with_trace [ESerialClose p] w)).
  { unfold Stop, serial_close. rewrite Hc, Hp. reflexivity. }
  rewrite E. simpl world_of.
  split; [reflexivity|]. split; [reflexivity|]. split; [exact Hr|].
  split; [|split].
  - intros t.
    destruct (RunTransaction_starts t (with_trace [ESerialClose p] w) Hr Hc)
      as (_ & b2 & b3 & _ & _ & tr & b6 & b7).
    cbv zeta. split; [exact b3|]. split; [exact b2|].
    rewrite b6. simpl. rewrite !started_app. simpl. rewrite b7, app_nil_r.
    reflexivity.
  - unfold Stopped, bind, update.
    match goal with |- context [events ?c !! "close"] =>
      destruct (events c !! "close") as [cb|]; [destruct (truthy cb)|]
    end; try reflexivity. destruct cb; reflexivity.
  - exact step_clears_running.
Qed.

(** ** The controller as [NewCm11A] builds it *)

Lemma events_ok_initial (c : CM11A) :
  events c = events NewCm11A -> events_ok c.
Proof.
  intros E. unfold events_ok, has_event_keys. rewrite E. simpl. split.
  - intros k. rewrite !lookup_insert_is_Some, lookup_empty. unfold is_Some. simpl.
    split.
    + intros [<-|[_ [<-|[_ [<-|[_ [v Hv]]]]]]]; try discriminate; tauto.
    + intros [<-|[<-|[<-|[]]]].
      * left. reflexivity.
      * right. split; [discriminate|]. left. reflexivity.
      * right. split; [discriminate|]. right. split; [discriminate|]. left. reflexivity.
  - intros k v. rewrite !lookup_insert_Some, lookup_empty.
    intros [[_ <-]|[_ [[_ <-]|[_ [[_ <-]|[_ H]]]]]]; try discriminate; left; reflexivity.
Qed.

Lemma stable_initial_events w p :
  running (ctrl w) = true -> serial (ctrl w) = Some p ->
  events (ctrl w) = events NewCm11A ->
  (currentTrans (ctrl w) = None -> transactionQueue (ctrl w) = []) ->
  stable w.
Proof.
  intros Hr Hp He Hq. split; [exact Hr|]. split; [exists p; exact Hp|].
  split; [apply events_ok_initial, He | exact Hq].
Qed.

(** ** What every reachable world satisfies *)

Lemma typeof_function (v : jsval) :
  typeof v = "function" -> exists f, v = JFun f.
Proof. destruct v; try discriminate. intros _. eexists. reflexivity. Qed.

Lemma SetEvent_events_ok (event : string) (callBack : jsval) w :
  events_ok (ctrl w) -> events_ok (ctrl (world_of (SetEvent event callBack w))).
Proof.
  intros [Hk Hs]. unfold SetEvent.
  destruct (events (ctrl w) !! event) as [v|] eqn:Hv; [|split; assumption].
  destruct (String.eqb (typeof callBack) "function") eqn:Hf; simpl;
    [|split; assumption].
  apply String.eqb_eq, typeof_function in Hf as [f ->]. split.
  - intros k. simpl. destruct (decide (event = k)) as [<-|Hne].
    + rewrite lookup_insert_eq. split; [intros _; apply Hk; eauto | eauto].
    + rewrite lookup_insert_ne by exact Hne. apply Hk.
  - intros k v'. simpl. rewrite lookup_insert_Some.
    intros [[_ <-]|[_ H]]; [right; eauto | exact (Hs k v' H)].
Qed.

Lemma RunTransaction_frame t w :
  let w' := world_of (RunTransaction t w) in
  serial (ctrl w') = serial (ctrl w) /\
  running (ctrl w') = running (ctrl w) /\
  events (ctrl w') = events (ctrl w) /\
  (currentTrans (ctrl w') = currentTrans (ctrl w) \/ running (ctrl w) = true).
Proof.
  destruct (running (ctrl w)) eqn:Hr.
  - destruct (currentTrans (ctrl w)) as [c|] eqn:Hc.
    + rewrite (RunTransaction_busy t w c Hr Hc). simpl. rewrite Hr, Hc. tidy.
      left. reflexivity.
    + destruct (RunTransaction_starts t w Hr Hc) as (a1 & a2 & _ & _ & a5 & _).
      cbv zeta. rewrite a1, a2, a5. tidy. right. reflexivity.
  - rewrite (RunTransaction_not_running t w Hr). simpl. rewrite Hr. tidy.
    left. reflexivity.
Qed.

Lemma well_formed_same w w' :
  serial (ctrl w') = serial (ctrl w) ->
  events (ctrl w') = events (ctrl w) ->
  (running (ctrl w') = true -> running (ctrl w) = true) ->
  (forall t, currentTrans (ctrl w') = Some t ->
     running (ctrl w) = true \/ exists t0, currentTrans (ctrl w) = Some t0) ->
  well_formed w -> well_formed w'.
Proof.
  intros Hs He Hr Hc (W1 & W2 & W3). unfold well_formed, events_ok, has_event_keys.
  rewrite Hs, He. split; [exact W1|]. split.
  - intros H. apply W2, Hr, H.
  - intros t H. destruct (Hc t H) as [R|[t0 C]]; [apply W2, R | exact (W3 t0 C)].
Qed.

Lemma RunTransaction_well_formed t w :
  well_formed w -> well_formed (world_of (RunTransaction t w)).
Proof.
  destruct (RunTransaction_frame t w) as (a1 & a2 & a3 & a4).
  apply well_formed_same; try assumption.
  - rewrite a2. exact id.
  - intros t0 H. destruct a4 as [E|R]; [|left; exact R].
    right. exists t0. rewrite <- E. exact H.
Qed.

Lemma offer_well_formed t (data : list byte) w :
  currentTrans (ctrl w) = Some t ->
  well_formed w -> well_formed (world_of (offer t data w)).
Proof.
  intros Hc. destruct (offer_frame t data w) as (a1 & a2 & _ & a4 & _).
  apply well_formed_same; try assumption.
  - rewrite a2. exact id.
  - intros t0 _. right. exists t. exact Hc.
Qed.

Lemma step_well_formed (i : input) w :
  well_formed w -> well_formed (world_of (step i w)).
Proof.
  intros H. pose proof H as (W1 & W2 & W3). destruct i; simpl.
  - split; [apply SetEvent_events_ok, W1|].
    unfold SetEvent. destruct (events (ctrl w) !! event); [|split; assumption].
    destruct (negb _); split; assumption.
  - unfold bind, Start. simpl. destruct (running (ctrl w)) eqn:Hr; simpl; [exact H|].
    split; [exact W1|]. split; intros; eexists; reflexivity.
  - unfold Stop, serial_close. destruct (currentTrans (ctrl w)) eqn:Hc.
    + simpl. split; [exact W1|]. split; [discriminate|]. simpl. rewrite Hc. exact W3.
    + destruct (serial (ctrl w)); exact H.
  - apply RunTransaction_well_formed, H.
  - unfold SerialRead. destruct data as [|b rest]; [exact H|]. unfold bind.
    assert (H1 : well_formed (world_of (offered (b :: rest) w))).
    { unfold offered. destruct (currentTrans (ctrl w)) as [t|] eqn:Hc;
        [apply offer_well_formed; assumption | exact H]. }
    destruct (offered (b :: rest) w) as [used w1|e w1]; simpl in H1; [|exact H1].
    destruct used; simpl; [exact H1|].
    destruct (b =? POLL_REQUEST); [apply RunTransaction_well_formed, H1|].
    destruct (b =? POLL_POWER_FAIL); [apply RunTransaction_well_formed, H1|].
    destruct (b =? POLL_EEPROM_ADDRESS); [apply RunTransaction_well_formed, H1|].
    exact H1.
  - exact H.
  - unfold Stopped, bind, update.
    assert (H0 : well_formed (with_ctrl (set_running false) w)).
    { split; [exact W1|]. split; [discriminate | exact W3]. }
    match goal with |- context [events ?c !! "close"] =>
      destruct (events c !! "close") as [cb|]; [destruct (truthy cb)|]
    end; try exact H0. destruct cb; exact H0.
  - assert (settle o = RunQueuedTransaction) as -> by (destruct o; reflexivity).
    unfold RunQueuedTransaction, bind, update. simpl.
    assert (H0 : well_formed (with_ctrl (set_currentTrans None) w)).
    { split; [exact W1|]. split; [exact W2 | discriminate]. }
    destruct (running (ctrl w)) eqn:Hr.
    + destruct (transactionQueue (ctrl w)) as [|t q]; [exact H0|].
      apply RunTransaction_well_formed.
      split; [exact W1|]. split; [intros _; exact (W2 eq_refl) | discriminate].
    + unfold serial_close. simpl. destruct (serial (ctrl w)); exact H0.
  - unfold fire. destruct (existsb (Nat.eqb h) (pendingTimers w)); [|exact H].
    unfold Timeout. simpl. destruct (currentTrans (ctrl w)) as [t|] eqn:Hc; [|exact H].
    unfold bind.
    match goal with |- context [offer t [] ?w0] =>
      pose proof (offer_well_formed t [] w0 Hc H) as H1;
      destruct (offer t [] w0) as [u w1|e w1]
    end; exact H1.
Qed.

(** X4. Every world the controller of [NewCm11A] can be brought to is
    well formed, whatever the inputs, the code table and the transaction
    module: the listener table keeps its three keys, each slot holds
    [undefined] or a function, and the controller has a port whenever it
    runs or has a transaction in flight. *)
Lemma run_all_well_formed (l : list input) :
  well_formed (run_all l initWorld).
Proof.
  assert (H : well_formed initWorld).
  { split; [apply events_ok_initial; reflexivity|]. split; [discriminate|].
    intros t. discriminate. }
  unfold run_all. revert H. generalize initWorld.
  induction l as [|i l IH]; intros w H; [exact H|].
  simpl. apply IH, step_well_formed, H.
Qed.

(** * Further properties of the controller *)

(** ** The three ways a submission ends *)

Lemma RunTransaction_cases t w :
  let w' := world_of (RunTransaction t w) in
  (running (ctrl w) = false /\ w' = w) \/
  (running (ctrl w) = true /\ (exists c, currentTrans (ctrl w) = Some c) /\
   currentTrans (ctrl w') = currentTrans (ctrl w) /\
   transactionQueue (ctrl w') = transactionQueue (ctrl w) ++ [t] /\
   trace w' = trace w) \/
  (running (ctrl w) = true /\ currentTrans (ctrl w) = None /\
   currentTrans (ctrl w') = Some (fst (run t)) /\
   transactionQueue (ctrl w') = transactionQueue (ctrl w) /\
   started (trace w') = started (trace w) ++ [t]).
Proof.
  cbv zeta. destruct (running (ctrl w)) eqn:Hr.
  - destruct (currentTrans (ctrl w)) as [c|] eqn:Hc.
    + right. left. rewrite (RunTransaction_busy t w c Hr Hc). simpl. rewrite Hc.
      split; [reflexivity|]. split; [eauto|]. tidy.
    + right. right.
      destruct (RunTransaction_starts t w Hr Hc) as (_ & _ & b3 & b4 & _ & tr & b6 & b7).
      split; [reflexivity|]. split; [reflexivity|]. split; [exact b3|].
      split; [exact b4|]. rewrite b6, started_app. simpl. rewrite b7. reflexivity.
  - left. rewrite (RunTransaction_not_running t w Hr). tidy.
Qed.

Lemma RunTransaction_queue_step (c : bool) t w :
  queue_step c w (world_of (RunTransaction t w)).
Proof.
  destruct (RunTransaction_cases t w)
    as [[_ ->]|[(_ & _ & _ & Hq & Ht)|(Hr & Hc & Hc' & Hq & Hs)]].
  - left. tidy.
  - right. left. exists t. rewrite Hq, Ht. tidy.
  - right. right. left. exists t. tidy.
Qed.

Lemma queue_step_after (c : bool) w w1 w' :
  transactionQueue (ctrl w1) = transactionQueue (ctrl w) ->
  started (trace w1) = started (trace w) ->
  running (ctrl w1) = running (ctrl w) ->
  (currentTrans (ctrl w1) = None -> currentTrans (ctrl w) = None) ->
  queue_step c w1 w' -> queue_step c w w'.
Proof.
  intros Hq Hs Hr Hc. unfold queue_step. rewrite Hq, Hs, Hr.
  intros [H|[H|[(t & H1 & H2 & H3 & H4 & H5)|H]]].
  - left. exact H.
  - right. left. exact H.
  - right. right. left. exists t. tidy. apply Hc, H5.
  - right. right. right. exact H.
Qed.

Lemma step_queue_step (i : input) w :
  queue_step (is_settle i) w (world_of (step i w)).
Proof.
  destruct i; simpl.
  - left. unfold SetEvent. destruct (events (ctrl w) !! event); [|tidy].
    destruct (negb _); tidy.
  - left. unfold bind, Start. simpl. destruct (negb (running (ctrl w))); simpl;
      rewrite ?started_app, ?app_nil_r; tidy.
  - left. unfold Stop, serial_close. destruct (currentTrans (ctrl w)); [tidy|].
    destruct (serial (ctrl w)); simpl; rewrite ?started_app, ?app_nil_r; tidy.
  - apply RunTransaction_queue_step.
  - unfold SerialRead. destruct data as [|b rest]; [left; tidy|]. unfold bind.
    assert (H1 : let w1 := world_of (offered (b :: rest) w) in
                 transactionQueue (ctrl w1) = transactionQueue (ctrl w) /\
                 started (trace w1) = started (trace w) /\
                 running (ctrl w1) = running (ctrl w) /\
                 (currentTrans (ctrl w1) = None -> currentTrans (ctrl w) = None)).
    { unfold offered. destruct (currentTrans (ctrl w)) as [t|] eqn:Hc; [|tidy].
      destruct (offer_frame t (b :: rest) w) as (_ & a2 & a3 & _ & a5).
      cbv zeta. split; [exact a3|]. split; [exact a5|]. split; [exact a2|].
      unfold offer. destruct (handleMessage t (b :: rest)) as [[t' used] calls].
      unfold bind, update, emit, ret.
      match goal with |- context [exec_calls ?cs ?w0] =>
        destruct (exec_calls_frame cs w0) as (_ & _ & c3 & _);
        destruct (exec_calls cs w0) as [[] w2|e w2]
      end; simpl in *; rewrite c3; discriminate. }
    cbv zeta in H1.
    destruct (offered (b :: rest) w) as [used w1|e w1]; simpl in H1;
      destruct H1 as (Hq & Hs & Hr & Hc); [|left; tidy].
    destruct used; simpl; [left; tidy|].
    destruct (b =? POLL_REQUEST);
      [apply (queue_step_after _ w w1); auto; apply RunTransaction_queue_step|].
    destruct (b =? POLL_POWER_FAIL);
      [apply (queue_step_after _ w w1); auto; apply RunTransaction_queue_step|].
    destruct (b =? POLL_EEPROM_ADDRESS);
      [apply (queue_step_after _ w w1); auto; apply RunTransaction_queue_step|].
    left. tidy.
  - left. unfold HandleError, emit. simpl. rewrite started_app, app_nil_r. tidy.
  - left. unfold Stopped, bind, update.
    match goal with |- context [events ?c !! "close"] =>
      destruct (events c !! "close") as [cb|]; [destruct (truthy cb)|]
    end.
    + destruct cb; simpl; rewrite ?started_app, ?app_nil_r; tidy.
    + simpl. tidy.
    + simpl. tidy.
  - assert (settle o = RunQueuedTransaction) as -> by (destruct o; reflexivity).
    unfold RunQueuedTransaction, bind, update, serial_close. simpl.
    destruct (running (ctrl w)) eqn:Hr.
    + destruct (transactionQueue (ctrl w)) as [|t q] eqn:Hq; [left; tidy|].
      right. right. right. exists t.
      match goal with |- context [RunTransaction t ?w0] =>
        destruct (RunTransaction_cases t w0)
          as [[Hr0 _]|[(_ & [c Hc0] & _)|(_ & _ & Hc0 & Hq0 & Hs0)]]
      end; simpl in *; try congruence.
      rewrite Hq0, Hs0, Hc0. tidy.
    + left. destruct (serial (ctrl w)); simpl; rewrite ?started_app, ?app_nil_r; tidy.
  - left. unfold fire. destruct (existsb (Nat.eqb h) (pendingTimers w)); [|tidy].
    unfold Timeout. simpl.
    destruct (currentTrans (ctrl w)) as [t|]; [|tidy]. unfold bind.
    match goal with |- context [offer t [] ?w0] =>
      destruct (offer_frame t [] w0) as (_ & _ & a3 & _ & a5);
      destruct (offer t [] w0) as [u w1|e w1]
    end; simpl in *; rewrite a3, a5; tidy.
Qed.

(** X1. Whatever reaches the controller, its queue changes at its two ends
    only: a turn leaves the queue as it is, or puts one transaction at its
    end and starts nothing, or takes its head off and starts just that
    transaction; the last happens at a completion only. *)
Theorem queue_changes_at_ends (i : input) w :
  let w' := world_of (step i w) in
  transactionQueue (ctrl w') = transactionQueue (ctrl w) \/
  (exists t, transactionQueue (ctrl w') = transactionQueue (ctrl w) ++ [t] /\
             started (trace w') = started (trace w)) \/
  (exists t o, transactionQueue (ctrl w) = t :: transactionQueue (ctrl w') /\
               started (trace w') = started (trace w) ++ [t] /\
               i = InSettle o).
Proof.
  cbv zeta.
  destruct (step_queue_step i w)
    as [[H _]|[H|[(t & H & _)|(t & H1 & H2 & _ & _ & H5)]]].
  - left. exact H.
  - right. left. exact H.
  - left. exact H.
  - right. right. destruct i; try discriminate H5. exists t, o. tidy.
Qed.

(** X2. One transaction at a time: a turn starts at most one transaction,
    the one started is the current one when the turn ends, and it is
    started only on a running engine whose slot is free when the turn
    begins, or at the completion of the current transaction, in which
    case it is the head of the queue. *)
Theorem run_needs_free_slot (i : input) w :
  let w' := world_of (step i w) in
  started (trace w') = started (trace w) \/
  exists t,
    started (trace w') = started (trace w) ++ [t] /\
    currentTrans (ctrl w') = Some (fst (run t)) /\
    running (ctrl w) = true /\
    (currentTrans (ctrl w) = None \/
     (exists o, i = InSettle o) /\
     transactionQueue (ctrl w) = t :: transactionQueue (ctrl w')).
Proof.
  cbv zeta.
  destruct (step_queue_step i w)
    as [[_ H]|[(t & _ & H)|[(t & _ & H2 & H3 & H4 & H5)|(t & H1 & H2 & H3 & H4 & H5)]]].
  - left. exact H.
  - left. exact H.
  - right. exists t. tidy. left. exact H5.
  - right. exists t. split; [exact H2|]. split; [exact H3|]. split; [exact H4|].
    right. split; [|exact H1]. destruct i; try discriminate H5. eauto.
Qed.

(** ** No throw in regular use *)

Lemma well_formed_callbacks_safe w :
  well_formed w -> (exists p, serial (ctrl w) = Some p) -> callbacks_safe w.
Proof. intros ([_ He] & _) Hp. split; assumption. Qed.

Lemma RunTransaction_returns t w :
  well_formed w -> exists w', RunTransaction t w = Ok tt w'.
Proof.
  intros H. pose proof H as (W1 & W2 & W3).
  destruct (running (ctrl w)) eqn:Hr.
  - destruct (currentTrans (ctrl w)) as [c|] eqn:Hc.
    + rewrite (RunTransaction_busy t w c Hr Hc). eauto.
    + rewrite (RunTransaction_idle t w Hr Hc). apply exec_calls_returns.
      destruct W1 as [_ He]. split; [exact (W2 eq_refl) | exact He].
  - rewrite (RunTransaction_not_running t w Hr). eauto.
Qed.

Lemma offer_returns t (data : list byte) w :
  well_formed w -> currentTrans (ctrl w) = Some t ->
  exists u w', offer t data w = Ok u w'.
Proof.
  intros (W1 & W2 & W3) Hc. unfold offer.
  destruct (handleMessage t data) as [[t' used] calls].
  unfold bind, update, emit, ret.
  match goal with |- context [exec_calls ?cs ?w0] =>
    destruct (exec_calls_returns cs w0) as [w' E]
  end.
  { destruct W1 as [_ He]. split; [exact (W3 t Hc) | exact He]. }
  rewrite E. eauto.
Qed.

(** X3. In regular use nothing throws: on a controller whose listener
    table is in order and which has a port whenever it runs or has a
    transaction in flight, every admissible input is handled to its end,
    and the controller is left in such a state again. *)
Theorem step_returns (i : input) w :
  well_formed w -> admissible i w ->
  exists w', step i w = Ok tt w' /\ well_formed w'.
Proof.
  intros H Ha.
  assert (Hret : exists w', step i w = Ok tt w').
  { pose proof H as (W1 & W2 & W3). destruct i; simpl in *.
    - destruct Ha as [Hin Hf]. apply (proj1 W1) in Hin as [v Hv].
      unfold SetEvent. rewrite Hv, Hf. simpl. eauto.
    - unfold bind, Start. simpl. eauto.
    - destruct Ha as [p Hp]. unfold Stop, serial_close.
      destruct (currentTrans (ctrl w)); [eauto|]. rewrite Hp. eauto.
    - apply RunTransaction_returns, H.
    - unfold SerialRead. destruct data as [|b rest]; [eauto|]. unfold bind.
      assert (H1 : exists u w1, offered (b :: rest) w = Ok u w1 /\ well_formed w1).
      { unfold offered. destruct (currentTrans (ctrl w)) as [t|] eqn:Hc.
        - destruct (offer_returns t (b :: rest) w H Hc) as (u & w1 & E).
          pose proof (offer_well_formed t (b :: rest) w Hc H) as H1.
          rewrite E in *. eauto.
        - exists false, w. tidy. }
      destruct H1 as (u & w1 & -> & H1). destruct u; simpl; [eauto|].
      destruct (b =? POLL_REQUEST); [apply RunTransaction_returns, H1|].
      destruct (b =? POLL_POWER_FAIL); [apply RunTransaction_returns, H1|].
      destruct (b =? POLL_EEPROM_ADDRESS); [apply RunTransaction_returns, H1|].
      eauto.
    - eauto.
    - unfold Stopped, bind, update. simpl.
      destruct (events (ctrl w) !! "close") as [cb|] eqn:E; [|eauto].
      destruct (proj2 W1 _ _ E) as [->|[f ->]]; simpl; eauto.
    - destruct Ha as [t Ht]. destruct (W3 t Ht) as [p Hp].
      assert (settle o = RunQueuedTransaction) as -> by (destruct o; reflexivity).
      unfold RunQueuedTransaction, bind, update, serial_close. simpl.
      destruct (running (ctrl w)) eqn:Hr.
      + destruct (transactionQueue (ctrl w)) as [|t0 q]; [eauto|].
        apply RunTransaction_returns.
        split; [exact W1|]. split; [intros _; eauto | discriminate].
      + rewrite Hp. eauto.
    - unfold fire. destruct (existsb (Nat.eqb h) (pendingTimers w)); [|eauto].
      unfold Timeout. simpl. destruct (currentTrans (ctrl w)) as [t|] eqn:Hc; [|eauto].
      unfold bind.
      match goal with |- context [offer t [] ?w0] =>
        destruct (offer_returns t [] w0 H Hc) as (u & w1 & ->)
      end. eauto. }
  destruct Hret as [w' E]. exists w'. split; [exact E|].
  pose proof (step_well_formed i w H) as H1. rewrite E in H1. exact H1.
Qed.

(** ** What changes the port and the listeners *)

(** X5. The port kept in [serial] is replaced by [start()] on an engine
    that is not running, and by nothing else: any other turn leaves
    [serial] as it is, even after the port was closed, and does not set
    [running]. *)
Theorem port_replaced_only_by_start (i : input) w :
  let w' := world_of (step i w) in
  (serial (ctrl w') = serial (ctrl w) /\
   (running (ctrl w') = false \/ running (ctrl w) = true)) \/
  (exists device,
     i = InStart device /\ running (ctrl w) = false /\
     serial (ctrl w') = Some (freshPort w) /\ running (ctrl w') = true).
Proof.
  cbv zeta.
  assert (Hb : forall b : bool, b = false \/ b = true) by (intros []; auto).
  assert (Hkeep : forall w1 : World,
    serial (ctrl w1) = serial (ctrl w) -> running (ctrl w1) = running (ctrl w) ->
    serial (ctrl w1) = serial (ctrl w) /\
    (running (ctrl w1) = false \/ running (ctrl w) = true)).
  { intros w1 Hs Hr. split; [exact Hs|]. rewrite Hr. apply Hb. }
  assert (Hrun : forall t (w0 w1 : World),
    serial (ctrl w1) = serial (ctrl w0) -> running (ctrl w1) = running (ctrl w0) ->
    serial (ctrl (world_of (RunTransaction t w1))) = serial (ctrl w0) /\
    running (ctrl (world_of (RunTransaction t w1))) = running (ctrl w0)).
  { intros t w0 w1 Hs Hr.
    destruct (RunTransaction_frame t w1) as (a1 & a2 & _). rewrite a1, a2. tidy. }
  destruct i; simpl.
  - left. apply Hkeep; unfold SetEvent; destruct (events (ctrl w) !! event);
      try destruct (negb _); reflexivity.
  - unfold bind, Start. simpl. destruct (running (ctrl w)) eqn:Hr; simpl.
    + left. rewrite Hr. tidy. right. reflexivity.
    + right. exists device. tidy.
  - left. unfold Stop, serial_close. destruct (currentTrans (ctrl w)).
    + simpl. split; [reflexivity | left; reflexivity].
    + destruct (serial (ctrl w)) eqn:E; simpl; rewrite ?E;
        (split; [reflexivity | apply Hb]).
  - left. apply Hkeep; apply (Hrun t w w); reflexivity.
  - left. unfold SerialRead. destruct data as [|b rest]; [apply Hkeep; reflexivity|].
    unfold bind.
    assert (H1 : serial (ctrl (world_of (offered (b :: rest) w))) = serial (ctrl w) /\
                 running (ctrl (world_of (offered (b :: rest) w))) = running (ctrl w)).
    { unfold offered. destruct (currentTrans (ctrl w)) as [t|]; [|tidy].
      destruct (offer_frame t (b :: rest) w) as (a1 & a2 & _). tidy. }
    destruct (offered (b :: rest) w) as [used w1|e w1]; simpl in H1;
      destruct H1 as [Hs Hr]; [|apply Hkeep; assumption].
    destruct used; simpl; [apply Hkeep; assumption|].
    destruct (b =? POLL_REQUEST); [apply Hkeep; apply (Hrun _ w w1); assumption|].
    destruct (b =? POLL_POWER_FAIL); [apply Hkeep; apply (Hrun _ w w1); assumption|].
    destruct (b =? POLL_EEPROM_ADDRESS);
      [apply Hkeep; apply (Hrun _ w w1); assumption|].
    apply Hkeep; assumption.
  - left. apply Hkeep; reflexivity.
  - left. unfold Stopped, bind, update.
    match goal with |- context [events ?c !! "close"] =>
      destruct (events c !! "close") as [cb|]; [destruct (truthy cb)|]
    end; try (simpl; split; [reflexivity | left; reflexivity]).
    destruct cb; simpl; split; try reflexivity; left; reflexivity.
  - left. assert (settle o = RunQueuedTransaction) as -> by (destruct o; reflexivity).
    unfold RunQueuedTransaction, bind, update, serial_close. simpl.
    destruct (running (ctrl w)) eqn:Hr.
    + destruct (transactionQueue (ctrl w)) as [|t q];
        [simpl; split; [reflexivity | right; reflexivity]|].
      match goal with |- context [RunTransaction t ?w0] =>
        destruct (RunTransaction_frame t w0) as (a1 & a2 & _)
      end. simpl in *. rewrite a1. split; [reflexivity | right; reflexivity].
    + destruct (serial (ctrl w)) eqn:E; simpl; rewrite ?E, ?Hr;
        (split; [reflexivity | left; reflexivity]).
  - left. unfold fire. destruct (existsb (Nat.eqb h) (pendingTimers w));
      [|apply Hkeep; reflexivity].
    unfold Timeout. simpl. destruct (currentTrans (ctrl w)) as [t|];
      [|apply Hkeep; reflexivity].
    unfold bind.
    match goal with |- context [offer t [] ?w0] =>
      destruct (offer_frame t [] w0) as (a1 & a2 & _);
      destruct (offer t [] w0) as [u w1|e w1]
    end; simpl in *; apply Hkeep; assumption.
Qed.

(** X6. The listener table is changed by a registration that succeeds,
    and by nothing else: any other turn, a registration that throws
    included, leaves every slot as it is. *)
Theorem listeners_changed_only_by_on (i : input) w :
  let w' := world_of (step i w) in
  events (ctrl w') = events (ctrl w) \/
  exists event f,
    i = InOn event (JFun f) /\ is_Some (events (ctrl w) !! event) /\
    events (ctrl w') = <[event := JFun f]> (events (ctrl w)).
Proof.
  cbv zeta. destruct i; simpl.
  - unfold SetEvent. destruct (events (ctrl w) !! event) as [v|] eqn:Hv; [|left; tidy].
    destruct (String.eqb (typeof callBack) "function") eqn:Hf; simpl; [|left; tidy].
    apply String.eqb_eq, typeof_function in Hf as [f ->].
    right. exists event, f. rewrite Hv. tidy. eauto.
  - left. unfold bind, Start. simpl. destruct (negb (running (ctrl w))); reflexivity.
  - left. unfold Stop, serial_close. destruct (currentTrans (ctrl w)); [reflexivity|].
    destruct (serial (ctrl w)); reflexivity.
  - left. apply (RunTransaction_frame t w).
  - left. unfold SerialRead. destruct data as [|b rest]; [reflexivity|]. unfold bind.
    assert (H1 : events (ctrl (world_of (offered (b :: rest) w))) = events (ctrl w)).
    { unfold offered. destruct (currentTrans (ctrl w)) as [t|]; [|reflexivity].
      apply (offer_frame t (b :: rest) w). }
    destruct (offered (b :: rest) w) as [used w1|e w1]; simpl in H1; [|exact H1].
    destruct used; simpl; [exact H1|].
    assert (Hrun : forall t,
      events (ctrl (world_of (RunTransaction t w1))) = events (ctrl w)).
    { intros t. destruct (RunTransaction_frame t w1) as (_ & _ & a3 & _).
      rewrite a3. exact H1. }
    destruct (b =? POLL_REQUEST); [apply Hrun|].
    destruct (b =? POLL_POWER_FAIL); [apply Hrun|].
    destruct (b =? POLL_EEPROM_ADDRESS); [apply Hrun|].
    exact H1.
  - left. reflexivity.
  - left. unfold Stopped, bind, update.
    match goal with |- context [events ?c !! "close"] =>
      destruct (events c !! "close") as [cb|]; [destruct (truthy cb)|]
    end; try reflexivity. destruct cb; reflexivity.
  - left. assert (settle o = RunQueuedTransaction) as -> by (destruct o; reflexivity).
    unfold RunQueuedTransaction, bind, update, serial_close. simpl.
    destruct (running (ctrl w)).
    + destruct (transactionQueue (ctrl w)) as [|t q]; [reflexivity|].
      match goal with |- context [RunTransaction t ?w0] =>
        destruct (RunTransaction_frame t w0) as (_ & _ & a3 & _)
      end. exact a3.
    + destruct (serial (ctrl w)); reflexivity.
  - left. unfold fire. destruct (existsb (Nat.eqb h) (pendingTimers w)); [|reflexivity].
    unfold Timeout. simpl. destruct (currentTrans (ctrl w)) as [t|]; [|reflexivity].
    unfold bind.
    match goal with |- context [offer t [] ?w0] =>
      destruct (offer_frame t [] w0) as (_ & _ & _ & a4 & _);
      destruct (offer t [] w0) as [u w1|e w1]
    end; exact a4.
Qed.

(** ** Timer expiry *)

(** X7. The expiry of a timer hands an empty chunk to the current
    transaction and does nothing else: with no current transaction the
    world stays as it is; with one, its [handleMessage] is the next call
    made, and whatever it answers no transaction is started or queued,
    and [running], the port and the listeners are left alone. *)
Theorem Timeout_never_submits w :
  let w' := world_of (Timeout w) in
  (serial (ctrl w') = serial (ctrl w) /\
   running (ctrl w') = running (ctrl w) /\
   transactionQueue (ctrl w') = transactionQueue (ctrl w) /\
   events (ctrl w') = events (ctrl w) /\
   started (trace w') = started (trace w)) /\
  (match currentTrans (ctrl w) with
   | None => Timeout w = Ok tt w
   | Some t =>
       currentTrans (ctrl w') = Some (fst (fst (handleMessage t []))) /\
       exists tr, trace w' = trace w ++ EHandleMessage t [] :: tr
   end).
Proof.
  cbv zeta. unfold Timeout. destruct (currentTrans (ctrl w)) as [t|] eqn:Hc.
  - unfold bind.
    pose proof (offer_frame t [] w) as Hf. cbv zeta in Hf.
    pose proof (offer_trace t [] w) as Ht.
    assert (Hcur : currentTrans (ctrl (world_of (offer t [] w)))
                   = Some (fst (fst (handleMessage t [])))).
    { unfold offer. destruct (handleMessage t []) as [[t' used] calls].
      unfold bind, update, emit, ret.
      match goal with |- context [exec_calls ?cs ?w0] =>
        destruct (exec_calls_frame cs w0) as (_ & _ & c3 & _);
        destruct (exec_calls cs w0) as [[] w2|e w2]
      end; simpl in *; exact c3. }
    destruct (offer t [] w) as [u w1|e w1]; simpl in *; tidy.
  - tidy.
Qed.

(** ** Controller status notifications *)

(** X8. The last registration wins: after two functions were registered
    for ['status'] one after the other, a status notification calls the
    second once, with the status as it was given, does not call the first,
    and the slots of the other two events are as they were. *)
Theorem NotifyStatus_last_listener (f g : nat) (status : jsval) w :
  has_event_keys (ctrl w) ->
  exists w1,
    steps [InOn "status" (JFun f); InOn "status" (JFun g)] w = Ok tt w1 /\
    trace w1 = trace w /\
    events (ctrl w1) !! "unitStatus" = events (ctrl w) !! "unitStatus" /\
    events (ctrl w1) !! "close" = events (ctrl w) !! "close" /\
    NotifyStatus status w1 = Ok tt (with_trace [ECall g [status]] w1) /\
    (f <> g ->
     invocations f (trace (world_of (NotifyStatus status w1)))
     = invocations f (trace w)).
Proof.
  intros Hk.
  assert (Hin : In "status" EVENTS) by (right; left; reflexivity).
  apply Hk in Hin as [v Hv].
  simpl steps. unfold bind at 1. unfold SetEvent at 1. rewrite Hv. simpl.
  unfold bind at 1. unfold SetEvent at 1. simpl. rewrite lookup_insert_eq. simpl.
  eexists. split; [reflexivity|]. simpl.
  split; [reflexivity|].
  split; [rewrite !lookup_insert_ne by discriminate; reflexivity|].
  split; [rewrite !lookup_insert_ne by discriminate; reflexivity|].
  unfold NotifyStatus. simpl. rewrite lookup_insert_eq. simpl.
  split; [reflexivity|].
  intros Hne. rewrite invocations_app. simpl.
  destruct (Nat.eqb f g) eqn:E; [apply Nat.eqb_eq in E; contradiction | lia].
Qed.

(** ** Unit commands *)

(** X9. On a running engine that is idle only when nothing waits, each of
    [turnOn], [turnOff], [dim], [bright] and [status] returns without
    throwing and adds exactly one transaction behind those started and
    waiting: the command with its function code, its units and its level
    ([undefined] for on and off), or the status request.  On an engine
    that is not running each of them returns and changes nothing. *)
Theorem unit_commands_submit (units level : jsval) w :
  (stable w ->
   (exists w', TurnOn units w = Ok tt w' /\ stable w' /\
               order w' = order w ++ [Command ON units JUndefined]) /\
   (exists w', TurnOff units w = Ok tt w' /\ stable w' /\
               order w' = order w ++ [Command OFF units JUndefined]) /\
   (exists w', Dim units level w = Ok tt w' /\ stable w' /\
               order w' = order w ++ [Command DIM units level]) /\
   (exists w', Bright units level w = Ok tt w' /\ stable w' /\
               order w' = order w ++ [Command BRIGHT units level]) /\
   (exists w', Status w = Ok tt w' /\ stable w' /\
               order w' = order w ++ [StatusRequest])) /\
  (running (ctrl w) = false ->
   TurnOn units w = Ok tt w /\ TurnOff units w = Ok tt w /\
   Dim units level w = Ok tt w /\ Bright units level w = Ok tt w /\
   Status w = Ok tt w).
Proof.
  split.
  - intros H. unfold TurnOn, TurnOff, Dim, Bright, Status.
    repeat split; apply submit_stable, H.
  - intros Hr. unfold TurnOn, TurnOff, Dim, Bright, Status.
    repeat split; apply RunTransaction_not_running, Hr.
Qed.

(** ** Inbound bytes on an engine that is not running *)

(** X12. While the engine is not running no poll is answered: a chunk
    that is not empty is still handed to the transaction in flight, if
    there is one, but whatever its leading byte and whatever the
    transaction answers, nothing is submitted; on an idle engine the chunk
    changes nothing. *)
Theorem SerialRead_not_running (data : list byte) w :
  running (ctrl w) = false ->
  (match data with
   | [] => SerialRead data w = Ok tt w
   | _ :: _ => SerialRead data w = (let* _ := offered data in ret tt) w
   end) /\
  started (trace (world_of (SerialRead data w))) = started (trace w) /\
  transactionQueue (ctrl (world_of (SerialRead data w))) = transactionQueue (ctrl w) /\
  running (ctrl (world_of (SerialRead data w))) = false /\
  (currentTrans (ctrl w) = None -> SerialRead data w = Ok tt w).
Proof.
  intros Hr.
  destruct (step_not_running (InData data) w eq_refl Hr) as (a1 & a2 & a3).
  simpl in a1, a2, a3.
  split; [|split; [exact a2 | split; [exact a3 | split; [exact a1|]]]].
  - destruct data as [|b rest]; [reflexivity|].
    unfold SerialRead, bind.
    assert (H1 : running (ctrl (world_of (offered (b :: rest) w))) = false).
    { unfold offered. destruct (currentTrans (ctrl w)) as [t|]; [|exact Hr].
      destruct (offer_frame t (b :: rest) w) as (_ & b2 & _). rewrite b2. exact Hr. }
    destruct (offered (b :: rest) w) as [used w1|e w1]; simpl in H1; [|reflexivity].
    destruct used; simpl; [reflexivity|].
    destruct (b =? POLL_REQUEST); [apply RunTransaction_not_running, H1|].
    destruct (b =? POLL_POWER_FAIL); [apply RunTransaction_not_running, H1|].
    destruct (b =? POLL_EEPROM_ADDRESS); [apply RunTransaction_not_running, H1|].
    reflexivity.
  - intros Hc. destruct data as [|b rest]; [reflexivity|].
    unfold SerialRead, bind, offered. rewrite Hc. simpl.
    destruct (b =? POLL_REQUEST); [apply RunTransaction_not_running, Hr|].
    destruct (b =? POLL_POWER_FAIL); [apply RunTransaction_not_running, Hr|].
    destruct (b =? POLL_EEPROM_ADDRESS); [apply RunTransaction_not_running, Hr|].
    reflexivity.
Qed.

(** ** Before the first [start()] *)

(** X13. A controller that never had a port has nothing in flight and is
    not running; on it [stop()] does not return but throws a [TypeError],
    and so does [write], with or without a timeout; neither changes
    anything, and [write] arms no timer. *)
Theorem Stop_without_port_throws w :
  well_formed w -> serial (ctrl w) = None ->
  running (ctrl w) = false /\
  currentTrans (ctrl w) = None /\
  Stop w = Throw (TypeError "this.serial.close is not a function") w /\
  (forall (data : list byte) (timeout : option Z),
     SerialWrite data timeout w
     = Throw (TypeError "this.serial.write is not a function") w).
Proof.
  intros (_ & W2 & W3) Hs.
  assert (Hr : running (ctrl w) = false).
  { destruct (running (ctrl w)); [|reflexivity].
    destruct (W2 eq_refl) as [p Hp]. congruence. }
  assert (Hc : currentTrans (ctrl w) = None).
  { destruct (currentTrans (ctrl w)) as [t|] eqn:E; [|reflexivity].
    destruct (W3 t eq_refl) as [p Hp]. congruence. }
  split; [exact Hr|]. split; [exact Hc|]. split.
  - unfold Stop, serial_close. rewrite Hc, Hs. reflexivity.
  - intros data timeout. unfold SerialWrite. rewrite Hs. reflexivity.
Qed.

(** ** How the timers move *)

Lemma exec_call_timer_moves (c : CtrlCall) w :
  rtc timer_move (timer_view w) (timer_view (world_of (exec_call c w))).
Proof.
  destruct c as [data [ms|] | | f h l u | s]; simpl.
  - unfold SerialWrite. destruct (serial (ctrl w)); [|apply rtc_refl].
    apply rtc_once. apply move_arm.
  - unfold SerialWrite. destruct (serial (ctrl w)); apply rtc_refl.
  - unfold CancelTimer, timer_view. destruct (timer (ctrl w)) as [h|] eqn:E;
      simpl; rewrite ?E; [|apply rtc_refl].
    apply rtc_once. apply move_cancel.
  - unfold NotifyUnitStatus. destruct (events (ctrl w) !! "unitStatus") as [cb|];
      [destruct (defined cb)|]; try apply rtc_refl. destruct cb; apply rtc_refl.
  - unfold NotifyStatus. destruct (events (ctrl w) !! "status") as [cb|];
      [destruct (defined cb)|]; try apply rtc_refl. destruct cb; apply rtc_refl.
Qed.

Lemma exec_calls_timer_moves cs w :
  rtc timer_move (timer_view w) (timer_view (world_of (exec_calls cs w))).
Proof.
  revert w. induction cs as [|c cs IH]; intros w; [apply rtc_refl|].
  simpl. unfold bind. pose proof (exec_call_timer_moves c w) as H.
  destruct (exec_call c w) as [[] w1|e w1]; simpl in H; [|exact H].
  eapply rtc_trans; [exact H | apply IH].
Qed.

Lemma RunTransaction_timer_moves t w :
  rtc timer_move (timer_view w) (timer_view (world_of (RunTransaction t w))).
Proof.
  unfold RunTransaction. destruct (running (ctrl w)); [|apply rtc_refl].
  destruct (currentTrans (ctrl w)); [apply rtc_refl|].
  destruct (run t) as [t' calls]. unfold bind, update, emit.
  match goal with |- context [exec_calls ?cs ?w0] =>
    apply (exec_calls_timer_moves cs w0)
  end.
Qed.

Lemma offer_timer_moves t (data : list byte) w :
  rtc timer_move (timer_view w) (timer_view (world_of (offer t data w))).
Proof.
  unfold offer. destruct (handleMessage t data) as [[t' used] calls].
  unfold bind, update, emit, ret.
  match goal with |- context [exec_calls ?cs ?w0] =>
    pose proof (exec_calls_timer_moves cs w0) as H;
    destruct (exec_calls cs w0) as [[] w1|e w1]
  end; exact H.
Qed.

Lemma filter_absent (h : TimerHandle) (p : list TimerHandle) :
  existsb (Nat.eqb h) p = false ->
  List.filter (fun h' => negb (Nat.eqb h' h)) p = p.
Proof.
  induction p as [|x p IH]; simpl; [reflexivity|].
  intros H. apply orb_false_elim in H as [Hx Hp].
  rewrite Nat.eqb_sym, Hx. simpl. rewrite (IH Hp). reflexivity.
Qed.

(** A turn moves the timers by arming and cancelling only, after the host
    has dropped the timer that expired, if the turn is an expiry. *)
Lemma step_timer_moves (i : input) w :
  rtc timer_move
    (match i with
     | InFire h => drop_timer h (timer_view w)
     | _ => timer_view w
     end)
    (timer_view (world_of (step i w))).
Proof.
  destruct i; simpl.
  - unfold SetEvent. destruct (events (ctrl w) !! event); [|apply rtc_refl].
    destruct (negb _); apply rtc_refl.
  - unfold bind, Start. simpl. destruct (negb (running (ctrl w))); apply rtc_refl.
  - unfold Stop, serial_close. destruct (currentTrans (ctrl w)); [apply rtc_refl|].
    destruct (serial (ctrl w)); apply rtc_refl.
  - apply RunTransaction_timer_moves.
  - unfold SerialRead. destruct data as [|b rest]; [apply rtc_refl|]. unfold bind.
    assert (H1 : rtc timer_move (timer_view w)
                   (timer_view (world_of (offered (b :: rest) w)))).
    { unfold offered. destruct (currentTrans (ctrl w));
        [apply offer_timer_moves | apply rtc_refl]. }
    destruct (offered (b :: rest) w) as [used w1|e w1]; simpl in H1; [|exact H1].
    destruct used; simpl; [exact H1|].
    destruct (b =? POLL_REQUEST);
      [eapply rtc_trans; [exact H1 | apply RunTransaction_timer_moves]|].
    destruct (b =? POLL_POWER_FAIL);
      [eapply rtc_trans; [exact H1 | apply RunTransaction_timer_moves]|].
    destruct (b =? POLL_EEPROM_ADDRESS);
      [eapply rtc_trans; [exact H1 | apply RunTransaction_timer_moves]|].
    exact H1.
  - apply rtc_refl.
  - unfold Stopped, bind, update.
    match goal with |- context [events ?c !! "close"] =>
      destruct (events c !! "close") as [cb|]; [destruct (truthy cb)|]
    end; try apply rtc_refl. destruct cb; apply rtc_refl.
  - assert (settle o = RunQueuedTransaction) as -> by (destruct o; reflexivity).
    unfold RunQueuedTransaction, bind, update, serial_close. simpl.
    destruct (running (ctrl w)).
    + destruct (transactionQueue (ctrl w)) as [|t q]; [apply rtc_refl|].
      match goal with |- context [RunTransaction t ?w0] =>
        apply (RunTransaction_timer_moves t w0)
      end.
    + destruct (serial (ctrl w)); apply rtc_refl.
  - unfold fire, drop_timer, timer_view. simpl.
    destruct (existsb (Nat.eqb h) (pendingTimers w)) eqn:E.
    + unfold Timeout. simpl. destruct (currentTrans (ctrl w)) as [t|];
        [|apply rtc_refl].
      unfold bind.
      match goal with |- context [offer t [] ?w0] =>
        pose proof (offer_timer_moves t [] w0) as H;
        destruct (offer t [] w0) as [u w1|e w1]
      end; exact H.
    + rewrite (filter_absent h _ E). apply rtc_refl.
Qed.

Lemma fresh_orphan_move (h : TimerHandle) v v' :
  timer_move v v' -> fresh_orphan h v -> fresh_orphan h v'.
Proof.
  intros Hm H. destruct Hm as [p f s|p f h0]; unfold fresh_orphan in *;
    simpl in *; destruct H as (H1 & H2 & H3 & H4).
  - split; [|split; [|split]].
    + intros x Hx. apply in_app_or in Hx as [Hx|[<-|[]]]; [apply H1 in Hx|]; lia.
    + intros x Hx. injection Hx as <-. lia.
    + apply in_or_app. left. exact H3.
    + intros E. injection E as ->. apply H1 in H3. lia.
  - split; [|split; [|split]].
    + intros x Hx. apply filter_In in Hx as [Hx _]. apply H1, Hx.
    + intros x Hx. discriminate Hx.
    + apply filter_In. split; [exact H3|].
      apply negb_true_iff, Nat.eqb_neq. intros ->. apply H4. reflexivity.
    + discriminate.
Qed.

Lemma fresh_orphan_drop (h h0 : TimerHandle) v :
  h0 <> h -> fresh_orphan h v -> fresh_orphan h (drop_timer h0 v).
Proof.
  intros Hne H. destruct v as [[p f] s]. unfold fresh_orphan, drop_timer in *.
  simpl in *. destruct H as (H1 & H2 & H3 & H4).
  split; [|split; [|split]].
  - intros x Hx. apply filter_In in Hx as [Hx _]. apply H1, Hx.
  - exact H2.
  - apply filter_In. split; [exact H3|].
    apply negb_true_iff, Nat.eqb_neq. congruence.
  - exact H4.
Qed.

Lemma fresh_retired_move (h : TimerHandle) v v' :
  timer_move v v' -> fresh_retired h v -> fresh_retired h v'.
Proof.
  intros Hm H. destruct Hm as [p f s|p f h0]; unfold fresh_retired in *;
    simpl in *; destruct H as (H1 & H2).
  - split; [|lia]. intros Hx. apply in_app_or in Hx as [Hx|[<-|[]]];
      [exact (H1 Hx) | lia].
  - split; [|exact H2]. intros Hx. apply filter_In in Hx as [Hx _]. exact (H1 Hx).
Qed.

Lemma fresh_retired_drop (h h0 : TimerHandle) v :
  fresh_retired h v -> fresh_retired h (drop_timer h0 v).
Proof.
  intros H. destruct v as [[p f] s]. unfold fresh_retired, drop_timer in *.
  simpl in *. destruct H as (H1 & H2). split; [|exact H2].
  intros Hx. apply filter_In in Hx as [Hx _]. exact (H1 Hx).
Qed.

Lemma moves_keep (P : list TimerHandle * nat * option TimerHandle -> Prop) v v' :
  (forall a b, timer_move a b -> P a -> P b) ->
  rtc timer_move v v' -> P v -> P v'.
Proof. intros HP Hr. induction Hr as [|a b c Hab _ IH]; eauto. Qed.

Lemma step_fresh_orphan (h : TimerHandle) (i : input) w :
  not_fire h i = true ->
  fresh_orphan h (timer_view w) ->
  fresh_orphan h (timer_view (world_of (step i w))).
Proof.
  intros Hi H. pose proof (step_timer_moves i w) as Hm.
  eapply (moves_keep (fresh_orphan h)); [apply fresh_orphan_move | exact Hm |].
  destruct i; try exact H.
  apply fresh_orphan_drop; [|exact H].
  simpl in Hi. apply negb_true_iff, Nat.eqb_neq in Hi. exact Hi.
Qed.

Lemma steps_fresh_orphan (h : TimerHandle) (l : list input) w :
  forallb (not_fire h) l = true ->
  fresh_orphan h (timer_view w) ->
  fresh_orphan h (timer_view (world_of (steps l w))).
Proof.
  revert w. induction l as [|i l IH]; intros w Hl H; [exact H|].
  simpl in Hl. apply andb_prop in Hl as [Hi Hl].
  pose proof (step_fresh_orphan h i w Hi H) as H1.
  simpl. unfold bind. destruct (step i w) as [[] w1|e w1]; simpl in H1;
    [apply IH; assumption | exact H1].
Qed.

Lemma step_fresh_retired (h : TimerHandle) (i : input) w :
  fresh_retired h (timer_view w) ->
  fresh_retired h (timer_view (world_of (step i w))).
Proof.
  intros H. pose proof (step_timer_moves i w) as Hm.
  eapply (moves_keep (fresh_retired h)); [apply fresh_retired_move | exact Hm |].
  destruct i; try exact H. apply fresh_retired_drop, H.
Qed.

Lemma steps_fresh_retired (h : TimerHandle) (l : list input) w :
  fresh_retired h (timer_view w) ->
  fresh_retired h (timer_view (world_of (steps l w))).
Proof.
  revert w. induction l as [|i l IH]; intros w H; [exact H|].
  pose proof (step_fresh_retired h i w H) as H1.
  simpl. unfold bind. destruct (step i w) as [[] w1|e w1]; simpl in H1;
    [apply IH; assumption | exact H1].
Qed.

Lemma existsb_absent (h : TimerHandle) (p : list TimerHandle) :
  ~ In h p -> existsb (Nat.eqb h) p = false.
Proof.
  intros H. destruct (existsb (Nat.eqb h) p) eqn:E; [|reflexivity].
  apply existsb_exists in E as (x & Hx & Hhx). apply Nat.eqb_eq in Hhx as <-.
  contradiction.
Qed.

Lemma existsb_present (h : TimerHandle) (p : list TimerHandle) :
  In h p -> existsb (Nat.eqb h) p = true.
Proof.
  intros H. apply existsb_exists. exists h. split; [exact H | apply Nat.eqb_refl].
Qed.

(** X10. A timer whose handle [write] has overwritten cannot be cancelled
    any more.  A write with a timeout, made while the timer kept in
    [timer] is still armed, leaves that timer armed and out of [timer];
    and such a timer stays armed, whatever reaches the controller, until
    it expires; when it does, the empty chunk goes to the transaction
    that is current then. *)
Theorem overwritten_timer_stays_armed (h : TimerHandle) w :
  timers_fresh w ->
  (forall p (data : list byte) (ms : Z),
     serial (ctrl w) = Some p -> timer (ctrl w) = Some h ->
     In h (pendingTimers w) ->
     orphaned h (world_of (SerialWrite data (Some ms) w))) /\
  (orphaned h w ->
   forall l : list input, forallb (not_fire h) l = true ->
     let w' := world_of (steps l w) in
     timers_fresh w' /\ orphaned h w' /\
     (forall t, currentTrans (ctrl w') = Some t ->
        exists tr, trace (world_of (fire h w'))
                   = trace w' ++ EHandleMessage t [] :: tr)).
Proof.
  intros [F1 F2]. split.
  - intros p data ms Hp Ht Hin. unfold SerialWrite. rewrite Hp. simpl.
    split; simpl.
    + apply in_or_app. left. exact Hin.
    + intros E. injection E as E. apply F1 in Hin. lia.
  - intros [O1 O2] l Hl.
    assert (H : fresh_orphan h (timer_view w)) by (repeat split; assumption).
    apply (steps_fresh_orphan h l w Hl) in H. cbv zeta.
    destruct H as (H1 & H2 & H3 & H4). unfold timer_view in *. simpl in *.
    split; [split; assumption|]. split; [split; assumption|].
    intros t Ht. unfold fire. rewrite (existsb_present h _ H3).
    unfold Timeout. simpl. rewrite Ht. unfold bind.
    match goal with |- context [offer t [] ?w0] =>
      destruct (offer_trace t [] w0) as [tr E];
      destruct (offer t [] w0) as [u w1|e w1]
    end; simpl in *; exists tr; exact E.
Qed.

(** X11. A cancelled timeout never reaches a transaction: after
    [cancelTimer], the timer whose handle was in [timer] is not armed, no
    later turn arms it again, and its expiry changes nothing. *)
Theorem cancelled_timer_never_fires (h : TimerHandle) w :
  timers_fresh w -> timer (ctrl w) = Some h ->
  forall l : list input,
    let w' := world_of (steps l (world_of (CancelTimer w))) in
    ~ In h (pendingTimers w') /\ fire h w' = Ok tt w'.
Proof.
  intros [F1 F2] Ht l.
  assert (H : fresh_retired h (timer_view (world_of (CancelTimer w)))).
  { unfold CancelTimer. rewrite Ht. simpl. split; simpl.
    - intros Hx. apply filter_In in Hx as [_ Hx].
      rewrite Nat.eqb_refl in Hx. discriminate Hx.
    - apply F2, Ht. }
  apply (steps_fresh_retired h l) in H. cbv zeta. destruct H as [H1 _].
  unfold timer_view in H1. simpl in H1. split; [exact H1|].
  unfold fire. rewrite (existsb_absent h _ H1). reflexivity.
Qed.

(** ** Closing ports *)

Lemma closed_app (a b : list effect) : closed (a ++ b) = closed a ++ closed b.
Proof.
  induction a as [|e a IH]; simpl; [reflexivity|].
  destruct e; simpl; rewrite ?IH; reflexivity.
Qed.

Lemma ports_kept_refl w : ports_kept w w.
Proof. repeat split. Qed.

Lemma ports_kept_trans w1 w2 w3 :
  ports_kept w1 w2 -> ports_kept w2 w3 -> ports_kept w1 w3.
Proof. intros (a1 & a2 & a3) (b1 & b2 & b3). repeat split; congruence. Qed.

Ltac ports_done :=
  unfold ports_kept; simpl; rewrite ?closed_app; simpl; rewrite ?app_nil_r;
  repeat split; reflexivity.

Lemma exec_call_ports_kept (c : CtrlCall) w :
  ports_kept w (world_of (exec_call c w)).
Proof.
  destruct c as [data [ms|] | | f h l u | s]; simpl.
  - unfold SerialWrite. destruct (serial (ctrl w)); ports_done.
  - unfold SerialWrite. destruct (serial (ctrl w)); ports_done.
  - unfold CancelTimer. destruct (timer (ctrl w)); ports_done.
  - unfold NotifyUnitStatus. destruct (events (ctrl w) !! "unitStatus") as [cb|];
      [destruct (defined cb)|]; try ports_done. destruct cb; ports_done.
  - unfold NotifyStatus. destruct (events (ctrl w) !! "status") as [cb|];
      [destruct (defined cb)|]; try ports_done. destruct cb; ports_done.
Qed.

Lemma exec_calls_ports_kept cs w :
  ports_kept w (world_of (exec_calls cs w)).
Proof.
  revert w. induction cs as [|c cs IH]; intros w; [apply ports_kept_refl|].
  simpl. unfold bind. pose proof (exec_call_ports_kept c w) as H.
  destruct (exec_call c w) as [[] w1|e w1]; simpl in H; [|exact H].
  eapply ports_kept_trans; [exact H | apply IH].
Qed.

Lemma RunTransaction_ports_kept t w :
  ports_kept w (world_of (RunTransaction t w)).
Proof.
  unfold RunTransaction. destruct (running (ctrl w)); [|apply ports_kept_refl].
  destruct (currentTrans (ctrl w)); [ports_done|].
  destruct (run t) as [t' calls]. unfold bind, update, emit.
  match goal with |- context [exec_calls ?cs ?w0] =>
    eapply ports_kept_trans; [|apply (exec_calls_ports_kept cs w0)]
  end. ports_done.
Qed.

Lemma offer_ports_kept t (data : list byte) w :
  ports_kept w (world_of (offer t data w)).
Proof.
  unfold offer. destruct (handleMessage t data) as [[t' used] calls].
  unfold bind, update, emit, ret.
  match goal with |- context [exec_calls ?cs ?w0] =>
    pose proof (exec_calls_ports_kept cs w0) as H;
    destruct (exec_calls cs w0) as [[] w1|e w1]
  end; simpl in *; (eapply ports_kept_trans; [|exact H]); ports_done.
Qed.

(** One turn, on the side of the ports: nothing; or [start()] on an engine
    that is not running opens a fresh port; or the port in [serial] is
    closed, by [stop()] on an idle engine or by a completion on an engine
    that is not running. *)
Lemma step_closed (i : input) w :
  let w' := world_of (step i w) in
  ports_kept w w' \/
  (exists device,
     i = InStart device /\ running (ctrl w) = false /\
     serial (ctrl w') = Some (freshPort w) /\ freshPort w' = S (freshPort w) /\
     closed (trace w') = closed (trace w)) \/
  (exists p,
     serial (ctrl w) = Some p /\ serial (ctrl w') = Some p /\
     freshPort w' = freshPort w /\
     closed (trace w') = closed (trace w) ++ [p] /\
     (i = InStop /\ currentTrans (ctrl w) = None \/
      (exists o, i = InSettle o) /\ running (ctrl w) = false)).
Proof.
  cbv zeta. destruct i; simpl.
  - left. unfold SetEvent. destruct (events (ctrl w) !! event); [|ports_done].
    destruct (negb _); ports_done.
  - unfold bind, Start. simpl. destruct (running (ctrl w)) eqn:Hr; simpl.
    + left. ports_done.
    + right. left. exists device. rewrite closed_app. simpl. rewrite app_nil_r. tidy.
  - unfold Stop, serial_close. destruct (currentTrans (ctrl w)) eqn:Hc; [left; ports_done|].
    destruct (serial (ctrl w)) as [p|] eqn:Hp; [|left; ports_done].
    right. right. exists p. simpl. rewrite closed_app, Hp. simpl. tidy.
    left. tidy.
  - left. apply RunTransaction_ports_kept.
  - left. unfold SerialRead. destruct data as [|b rest]; [apply ports_kept_refl|].
    unfold bind.
    assert (H1 : ports_kept w (world_of (offered (b :: rest) w))).
    { unfold offered. destruct (currentTrans (ctrl w));
        [apply offer_ports_kept | apply ports_kept_refl]. }
    destruct (offered (b :: rest) w) as [used w1|e w1]; simpl in H1; [|exact H1].
    destruct used; simpl; [exact H1|].
    destruct (b =? POLL_REQUEST);
      [eapply ports_kept_trans; [exact H1 | apply RunTransaction_ports_kept]|].
    destruct (b =? POLL_POWER_FAIL);
      [eapply ports_kept_trans; [exact H1 | apply RunTransaction_ports_kept]|].
    destruct (b =? POLL_EEPROM_ADDRESS);
      [eapply ports_kept_trans; [exact H1 | apply RunTransaction_ports_kept]|].
    exact H1.
  - left. unfold HandleError, emit. ports_done.
  - left. unfold Stopped, bind, update.
    match goal with |- context [events ?c !! "close"] =>
      destruct (events c !! "close") as [cb|]; [destruct (truthy cb)|]
    end; try ports_done. destruct cb; ports_done.
  - assert (settle o = RunQueuedTransaction) as -> by (destruct o; reflexivity).
    unfold RunQueuedTransaction, bind, update, serial_close. simpl.
    destruct (running (ctrl w)) eqn:Hr.
    + left. destruct (transactionQueue (ctrl w)) as [|t q]; [ports_done|].
      match goal with |- context [RunTransaction t ?w0] =>
        eapply ports_kept_trans; [|apply (RunTransaction_ports_kept t w0)]
      end. ports_done.
    + destruct (serial (ctrl w)) as [p|] eqn:Hp; [|left; ports_done].
      right. right. exists p. simpl. rewrite closed_app, Hp. simpl. tidy.
      right. eauto.
  - left. unfold fire. destruct (existsb (Nat.eqb h) (pendingTimers w));
      [|apply ports_kept_refl].
    unfold Timeout. simpl. destruct (currentTrans (ctrl w)) as [t|];
      [|ports_done].
    unfold bind.
    match goal with |- context [offer t [] ?w0] =>
      pose proof (offer_ports_kept t [] w0) as H;
      destruct (offer t [] w0) as [u w1|e w1]
    end; exact H.
Qed.

(** X15. The controller calls [close] on a port at two points only:
    in [stop()] when nothing is in flight, and at the completion of a
    transaction when the engine is not running; the port closed is the
    one [serial] holds, and it stays in [serial].  No other turn closes a
    port. *)
Theorem port_closed_only_when_stopping (i : input) w :
  let w' := world_of (step i w) in
  closed (trace w') = closed (trace w) \/
  exists p,
    serial (ctrl w) = Some p /\ serial (ctrl w') = Some p /\
    closed (trace w') = closed (trace w) ++ [p] /\
    (i = InStop /\ currentTrans (ctrl w) = None \/
     (exists o, i = InSettle o) /\ running (ctrl w) = false).
Proof.
  cbv zeta.
  destruct (step_closed i w) as [(_ & _ & H)|[(d & _ & _ & _ & _ & H)|(p & H)]].
  - left. exact H.
  - left. exact H.
  - right. exists p. destruct H as (H1 & H2 & _ & H4 & H5). tidy.
Qed.

Lemma step_superseded (p : PortId) (i : input) w :
  superseded p w ->
  superseded p (world_of (step i w)) /\
  (In p (closed (trace (world_of (step i w)))) -> In p (closed (trace w))).
Proof.
  intros (q & Hq & Hpq & Hqf).
  destruct (step_closed i w)
    as [(a1 & a2 & a3)|[(d & _ & _ & a1 & a2 & a3)|(q' & b1 & a1 & a2 & a3 & _)]].
  - split; [|rewrite a3; exact id]. exists q. rewrite a1, a2. tidy.
  - split; [|rewrite a3; exact id]. exists (freshPort w). rewrite a1, a2.
    split; [reflexivity|]. lia.
  - assert (q' = q) as -> by congruence.
    split; [exists q; rewrite a1, a2; tidy|].
    rewrite a3. intros H. apply in_app_or in H as [H|[H|[]]]; [exact H|]. lia.
Qed.

Lemma steps_superseded (p : PortId) (l : list input) w :
  superseded p w ->
  superseded p (world_of (steps l w)) /\
  (In p (closed (trace (world_of (steps l w)))) -> In p (closed (trace w))).
Proof.
  revert w. induction l as [|i l IH]; intros w H; [split; [exact H | exact id]|].
  destruct (step_superseded p i w H) as [H1 H2].
  simpl. unfold bind. destruct (step i w) as [[] w1|e w1]; simpl in *.
  - destruct (IH w1 H1) as [H3 H4]. split; [exact H3|]. intros Hin. apply H2, H4, Hin.
  - split; assumption.
Qed.

(** X14. [start()] during a graceful stop undoes it and leaves the first
    port open for good: when [stop()] is called with a transaction in
    flight and [start()] is called before that transaction completes, the
    engine runs again on a second port, the transaction is still in
    flight, [close] was not called on the first port, and whatever reaches
    the controller later it never is. *)
Theorem Start_during_stop_leaks_port (device : string) (p : PortId) t w :
  currentTrans (ctrl w) = Some t -> serial (ctrl w) = Some p ->
  (p < freshPort w)%nat ->
  let w2 := world_of (steps [InStop; InStart device] w) in
  running (ctrl w2) = true /\
  currentTrans (ctrl w2) = Some t /\
  serial (ctrl w2) = Some (freshPort w) /\
  trace w2 = trace w ++ [ENewSerialPort (freshPort w) device 4800;
                         ESerialOn (freshPort w) "data";
                         ESerialOn (freshPort w) "error";
                         ESerialOn (freshPort w) "close"] /\
  (forall l : list input,
     In p (closed (trace (world_of (steps l w2)))) -> In p (closed (trace w))).
Proof.
  intros Hc Hp Hlt. cbv zeta.
  assert (E : steps [InStop; InStart device] w =
              Ok tt {| ctrl := set_running true
                                 (set_serial (Some (freshPort w))
                                    (set_running false (ctrl w)));
                       pendingTimers := pendingTimers w;
                       freshTimer := freshTimer w;
                       freshPort := S (freshPort w);
                       trace := trace w ++ [ENewSerialPort (freshPort w) device 4800;
                                            ESerialOn (freshPort w) "data";
                                            ESerialOn (freshPort w) "error";
                                            ESerialOn (freshPort w) "close"] |}).
  { simpl. unfold bind, Stop, update. rewrite Hc. reflexivity. }
  rewrite E. simpl world_of.
  split; [reflexivity|]. split; [exact Hc|]. split; [reflexivity|].
  split; [reflexivity|].
  intros l H.
  match type of H with context [steps l ?w0] =>
    assert (Hs : superseded p w0)
      by (exists (freshPort w); simpl; split; [reflexivity | lia]);
    apply (steps_superseded p l w0 Hs) in H
  end.
  simpl in H. rewrite closed_app in H. simpl in H. rewrite app_nil_r in H. exact H.
Qed.

Lemma stable_well_formed w : stable w -> well_formed w.
Proof.
  intros (Hr & Hp & He & _). split; [exact He|]. split; intros; exact Hp.
Qed.

(** ** Registrations one after the other *)

(** X16. Registrations compose as writes to a table: for two different
    events the order of two registrations does not matter, and of two
    registrations for one event only the second counts. *)
Theorem registrations_compose (e1 e2 : string) (f g : nat) w :
  has_event_keys (ctrl w) -> In e1 EVENTS -> In e2 EVENTS ->
  (e1 <> e2 ->
   steps [InOn e1 (JFun f); InOn e2 (JFun g)] w
   = steps [InOn e2 (JFun g); InOn e1 (JFun f)] w) /\
  steps [InOn e1 (JFun f); InOn e1 (JFun g)] w = step (InOn e1 (JFun g)) w.
Proof.
  intros Hk H1 H2. apply Hk in H1 as [v1 Hv1]. apply Hk in H2 as [v2 Hv2].
  split.
  - intros Hne. simpl. unfold bind, SetEvent, update, ret. rewrite Hv1, Hv2. simpl.
    rewrite lookup_insert_ne by congruence.
    rewrite lookup_insert_ne by congruence.
    rewrite Hv1, Hv2. simpl. unfold with_ctrl, set_events. simpl.
    rewrite insert_insert_ne by congruence. reflexivity.
  - simpl. unfold bind, SetEvent, update, ret. rewrite Hv1. simpl.
    rewrite lookup_insert_eq. simpl. unfold with_ctrl, set_events. simpl.
    rewrite insert_insert_eq. reflexivity.
Qed.

(** ** A close signal with a transaction in flight *)

(** X17. When the port reports that it closed while a transaction is in
    flight, the engine stops running but the transaction stays current;
    at its completion the current slot is cleared, nothing is started,
    the queue is kept, and [close] is called on the port once more. *)
Theorem close_signal_in_flight (o : outcome) (p : PortId) t w :
  well_formed w -> currentTrans (ctrl w) = Some t -> serial (ctrl w) = Some p ->
  exists w1 w2,
    Stopped w = Ok tt w1 /\
    running (ctrl w1) = false /\ currentTrans (ctrl w1) = Some t /\
    closed (trace w1) = closed (trace w) /\
    settle o w1 = Ok tt w2 /\
    running (ctrl w2) = false /\ currentTrans (ctrl w2) = None /\
    transactionQueue (ctrl w2) = transactionQueue (ctrl w) /\
    started (trace w2) = started (trace w) /\
    closed (trace w2) = closed (trace w) ++ [p].
Proof.
  intros ([_ He] & _) Hc Hp.
  assert (settle o = RunQueuedTransaction) as -> by (destruct o; reflexivity).
  unfold Stopped, bind, update. simpl.
  destruct (events (ctrl w) !! "close") as [cb|] eqn:E.
  - destruct (He _ _ E) as [->|[f ->]]; simpl.
    + eexists. eexists. split; [reflexivity|]. simpl.
      split; [reflexivity|]. split; [exact Hc|]. split; [reflexivity|].
      unfold RunQueuedTransaction, bind, update, serial_close. simpl. rewrite Hp.
      split; [reflexivity|]. simpl. rewrite started_app, closed_app, app_nil_r. tidy.
    + eexists. eexists. split; [reflexivity|]. simpl.
      split; [reflexivity|]. split; [exact Hc|].
      split; [rewrite closed_app, app_nil_r; reflexivity|].
      unfold RunQueuedTransaction, bind, update, serial_close. simpl. rewrite Hp.
      split; [reflexivity|]. simpl.
      rewrite !started_app, !closed_app, !app_nil_r. tidy.
  - eexists. eexists. split; [reflexivity|]. simpl.
    split; [reflexivity|]. split; [exact Hc|]. split; [reflexivity|].
    unfold RunQueuedTransaction, bind, update, serial_close. simpl. rewrite Hp.
    split; [reflexivity|]. simpl. rewrite started_app, closed_app, app_nil_r. tidy.
Qed.

(** ** Draining the queue *)

Lemma settle_next (o : outcome) t (q : list Trans) w :
  stable w -> transactionQueue (ctrl w) = t :: q ->
  exists w',
    settle o w = Ok tt w' /\ stable w' /\
    currentTrans (ctrl w') = Some (fst (run t)) /\
    transactionQueue (ctrl w') = q /\
    started (trace w') = started (trace w) ++ [t].
Proof.
  intros Hst Hq. pose proof Hst as (Hr & _).
  destruct (settle_stable o w Hst) as (w' & E & Hst' & _).
  exists w'. split; [exact E|]. split; [exact Hst'|].
  assert (settle o = RunQueuedTransaction) as Es by (destruct o; reflexivity).
  rewrite Es, (RunQueuedTransaction_next w t q Hr Hq) in E.
  match type of E with RunTransaction t ?w0 = _ =>
    destruct (RunTransaction_starts t w0 Hr eq_refl)
      as (_ & _ & b3 & b4 & _ & tr & b6 & b7)
  end.
  rewrite E in *. simpl in *. split; [exact b3|]. split; [exact b4|].
  rewrite b6, started_app. simpl. rewrite b7. reflexivity.
Qed.

(** X18. The queue drains: on a running engine with a transaction in
    flight, as many completions as there are transactions waiting, and
    one more, with nothing else in between, start the waiting
    transactions one by one in the order of the queue and leave the
    engine idle with an empty queue, whether the transactions succeed or
    fail. *)
Theorem queue_drains (os : list outcome) w :
  stable w -> (exists t, currentTrans (ctrl w) = Some t) ->
  length os = S (length (transactionQueue (ctrl w))) ->
  exists w',
    steps (map InSettle os) w = Ok tt w' /\
    stable w' /\
    currentTrans (ctrl w') = None /\
    transactionQueue (ctrl w') = [] /\
    started (trace w') = started (trace w) ++ transactionQueue (ctrl w).
Proof.
  remember (transactionQueue (ctrl w)) as q eqn:Hq. revert os w Hq.
  induction q as [|t q IH]; intros os w Hq Hst Hc Hl.
  - destruct os as [|o [|o' os]]; try discriminate Hl. simpl. unfold bind.
    pose proof Hst as (Hr & Hp & He & _).
    assert (settle o = RunQueuedTransaction) as -> by (destruct o; reflexivity).
    rewrite (RunQueuedTransaction_empty w Hr (eq_sym Hq)).
    eexists. split; [reflexivity|]. simpl. rewrite <- Hq, app_nil_r.
    split; [|tidy]. split; [exact Hr|]. split; [exact Hp|]. split; [exact He|].
    simpl. intros _. symmetry. exact Hq.
  - destruct os as [|o os]; [discriminate Hl|]. simpl in Hl. injection Hl as Hl.
    destruct (settle_next o t q w Hst (eq_sym Hq)) as (w1 & E1 & H1 & C1 & Q1 & S1).
    destruct (IH os w1 (eq_sym Q1) H1 (ex_intro _ _ C1) Hl)
      as (w' & E & H & C & Q & S).
    exists w'. simpl. unfold bind. rewrite E1.
    split; [exact E|]. split; [exact H|]. split; [exact C|]. split; [exact Q|].
    rewrite S, S1, <- app_assoc. reflexivity.
Qed.

End Proofs.

(** * The statements on the sample module *)

Lemma sample_markers_distinct : markers_distinct.
Proof. repeat split; discriminate. Qed.

Lemma sample_disciplined : disciplined_transactions.
Proof.
  split.
  - intros t. reflexivity.
  - intros t [|b rest]; simpl; [reflexivity|].
    unfold sample_handleMessage.
    destruct ((b =? 90) || (b =? 165) || (b =? 91)); reflexivity.
Qed.

Lemma startedWorld_stable : stable startedWorld.
Proof.
  apply (stable_initial_events startedWorld 0%nat); reflexivity.
Qed.

Lemma busyWorld_stable : stable busyWorld.
Proof.
  apply (stable_initial_events busyWorld 0%nat); reflexivity.
Qed.



Lemma RunTransaction_submit_witness :
  (running (ctrl initWorld) = false /\
   RunTransaction cmdA1on initWorld = Ok tt initWorld) /\
  (running (ctrl startedWorld) = true /\ currentTrans (ctrl startedWorld) = None /\
   currentTrans (ctrl (world_of (RunTransaction cmdA1on startedWorld)))
   = Some (fst (run cmdA1on))) /\
  (running (ctrl busyWorld) = true /\ currentTrans (ctrl busyWorld) = Some cmdA1on /\
   transactionQueue (ctrl (world_of (RunTransaction cmdA1off busyWorld))) = [cmdA1off]).
Proof.
  split; [|split].
  - split; [reflexivity|].
    apply (proj1 (RunTransaction_submit cmdA1on initWorld)). reflexivity.
  - split; [reflexivity|]. split; [reflexivity|].
    apply (proj1 (proj2 (RunTransaction_submit cmdA1on startedWorld))); reflexivity.
  - split; [reflexivity|]. split; [reflexivity|].
    rewrite (proj2 (proj2 (RunTransaction_submit cmdA1off busyWorld))
               eq_refl cmdA1on eq_refl).
    reflexivity.
Defined.

Lemma SerialRead_routing_witness :
  markers_distinct /\
  (currentTrans (ctrl startedWorld) = None /\
   SerialRead [90; 2] startedWorld = RunTransaction (PollResponse [90; 2]) startedWorld) /\
  (declines busyWorld [165] /\
   SerialRead [165] busyWorld
   = (let* _ := offered [165] in RunTransaction SetClock) busyWorld).
Proof.
  split; [exact sample_markers_distinct|]. split.
  - split; [reflexivity|].
    destruct (SerialRead_routing [90; 2] startedWorld sample_markers_distinct) as [_ H].
    destruct (H 90 [2] eq_refl) as (_ & _ & H3).
    apply (proj1 (H3 eq_refl)). reflexivity.
  - split; [reflexivity|].
    destruct (SerialRead_routing [165] busyWorld sample_markers_distinct) as [_ H].
    destruct (H 165 [] eq_refl) as (_ & H2 & _).
    apply (proj1 (proj2 (H2 eq_refl))). reflexivity.
Defined.

(** Two writes with a timeout and no [cancelTimer] between them leave two
    timers armed: the second write did not cancel the first. *)
Lemma SerialWrite_keeps_earlier_timer :
  let w := world_of (exec_calls [CallWrite [4; 102] (Some 1000);
                                 CallWrite [4; 102] (Some 1000)] startedWorld) in
  pendingTimers w = [0%nat; 1%nat] /\
  timer (ctrl w) = Some 1%nat /\
  trace w = trace startedWorld ++
            [ESerialWrite 0%nat [4; 102]; ESetTimeout 0%nat 1000;
             ESerialWrite 0%nat [4; 102]; ESetTimeout 1%nat 1000] /\
  ~ (length (pendingTimers w) <= 1)%nat.
Proof.
  cbv zeta. split; [reflexivity|]. split; [reflexivity|]. split; [reflexivity|].
  simpl. lia.
Qed.

Lemma CancelTimer_before_SerialWrite_witness :
  (serial (ctrl busyWorld) = Some 0%nat /\ one_timer busyWorld /\
   exists w', (let* _ := CancelTimer in SerialWrite [4; 102] (Some 1000)) busyWorld
              = Ok tt w' /\
              pendingTimers w' = [freshTimer busyWorld] /\
              timer (ctrl w') = Some (freshTimer busyWorld)) /\
  (disciplined_transactions /\
   (length (pendingTimers (world_of (steps timedSession busyWorld))) <= 1)%nat).
Proof.
  assert (H : one_timer busyWorld).
  { right. exists 0%nat. split; reflexivity. }
  split.
  - split; [reflexivity|]. split; [exact H|].
    exact (proj1 (proj2 CancelTimer_before_SerialWrite)
             busyWorld [4; 102] 1000 0%nat eq_refl H).
  - split; [exact sample_disciplined|].
    exact (proj2 (proj2 (proj2 CancelTimer_before_SerialWrite) sample_disciplined
                    timedSession busyWorld H)).
Defined.

(** A transaction that waits when the engine is stopped is still in the
    queue once the port is closed, and is started in the next session,
    after the command submitted there. *)
Lemma Stop_keeps_queue :
  let w := world_of (steps stopSession busyWorld) in
  running (ctrl w) = false /\
  currentTrans (ctrl w) = None /\
  transactionQueue (ctrl w) = [cmdA1off] /\
  transactionQueue (ctrl w) <> [] /\
  started (trace (world_of (steps nextSession w))) = [cmdA1on; cmdA2on; cmdA1off].
Proof.
  cbv zeta. split; [reflexivity|]. split; [reflexivity|]. split; [reflexivity|].
  split; [discriminate | reflexivity].
Qed.

Lemma Stop_graceful_witness :
  (currentTrans (ctrl queuedWorld) = Some cmdA1on /\
   serial (ctrl queuedWorld) = Some 0%nat /\
   Stop queuedWorld = Ok tt (with_ctrl (set_running false) queuedWorld) /\
   transactionQueue
     (ctrl (world_of (steps [InSubmit cmdA2on; InData [90]; InSettle Fulfilled; InClose]
                        (world_of (Stop queuedWorld)))))
   = [cmdA1off]) /\
  (currentTrans (ctrl startedWorld) = None /\
   serial (ctrl startedWorld) = Some 0%nat /\
   trace (world_of (Stop startedWorld)) = trace startedWorld ++ [ESerialClose 0%nat]).
Proof.
  split.
  - destruct (proj1 (Stop_graceful queuedWorld) cmdA1on eq_refl)
      as (H1 & _ & _ & _ & H5 & _).
    split; [reflexivity|]. split; [reflexivity|]. split; [exact H1|].
    exact (proj2 (proj2 (H5 [InSubmit cmdA2on; InData [90]; InSettle Fulfilled; InClose]
                           eq_refl))).
  - split; [reflexivity|]. split; [reflexivity|].
    rewrite (proj2 (Stop_graceful startedWorld) eq_refl 0%nat eq_refl). reflexivity.
Defined.

(** On the started idle controller, registering a listener for ['close']
    and calling [stop()] returns with [running] still true and the
    listener not called; on the controller as built, [stop()] throws and
    the listener is not called either. *)
Lemma stop_alone_calls_no_listener :
  (exists w1,
     steps [InOn "close" (JFun 7); InStop] startedWorld = Ok tt w1 /\
     running (ctrl w1) = true /\
     invocations 7 (trace w1) = 0%nat /\
     trace w1 = trace startedWorld ++ [ESerialClose 0%nat]) /\
  steps [InOn "close" (JFun 7); InStop] initWorld
  = Throw (TypeError "this.serial.close is not a function")
      (world_of (SetEvent "close" (JFun 7) initWorld)) /\
  invocations 7 (trace (world_of (steps [InOn "close" (JFun 7); InStop] initWorld)))
  = 0%nat.
Proof.
  split; [|split].
  - eexists. split; [vm_compute; reflexivity|].
    split; [reflexivity|]. split; reflexivity.
  - vm_compute. reflexivity.
  - vm_compute. reflexivity.
Qed.

Lemma Stopped_close_signal_witness :
  (is_Some (events (ctrl startedWorld) !! "close") /\
   serial (ctrl startedWorld) = Some 0%nat /\
   currentTrans (ctrl startedWorld) = None) /\
  (exists w1 w',
    steps [InOn "close" (JFun 7); InStop] startedWorld = Ok tt w1 /\
    running (ctrl w1) = running (ctrl startedWorld) /\
    trace w1 = trace startedWorld ++ [ESerialClose 0%nat] /\
    invocations 7 (trace w1) = invocations 7 (trace startedWorld) /\
    Stopped w1 = Ok tt w' /\
    steps [InOn "close" (JFun 7); InStop; InClose] startedWorld = Ok tt w' /\
    running (ctrl w') = false /\
    trace w' = trace startedWorld ++ [ESerialClose 0%nat; ECall 7 []] /\
    invocations 7 (trace w') = S (invocations 7 (trace startedWorld))) /\
  (is_Some (events (ctrl initWorld) !! "close") /\
   serial (ctrl initWorld) = None /\ currentTrans (ctrl initWorld) = None /\
   trace (world_of (steps [InOn "close" (JFun 7); InStop] initWorld))
   = trace initWorld).
Proof.
  assert (H : is_Some (events (ctrl startedWorld) !! "close"))
    by (exists JUndefined; reflexivity).
  assert (H0 : is_Some (events (ctrl initWorld) !! "close"))
    by (exists JUndefined; reflexivity).
  split; [|split].
  - split; [exact H|]. split; reflexivity.
  - exact (proj1 (proj2 (proj2 (proj2 (Stopped_close_signal startedWorld))))
             7%nat 0%nat H eq_refl eq_refl).
  - split; [exact H0|]. split; [reflexivity|]. split; [reflexivity|].
    exact (proj2 (proj2 (proj2 (proj2 (proj2 (proj2 (Stopped_close_signal initWorld))))
                           7%nat H0 eq_refl eq_refl))).
Defined.

(** What the listener receives is the same for two house codes, so no
    reading of it gives the house code back. *)
Lemma NotifyUnitStatus_drops_houseCode :
  trace (world_of (NotifyUnitStatus (JNum 2) (JStr "A") JUndefined
                     (JArr [JStr "A1"]) listeningWorld))
  = trace listeningWorld ++
    [ECall 7 [JObj [("units", JArr [JStr "A1"]);
                    ("x10Function", JNum 2);
                    ("level", JUndefined)]]] /\
  ~ exists decode : list effect -> jsval,
      forall houseCode,
        decode (trace (world_of (NotifyUnitStatus (JNum 2) houseCode JUndefined
                                   (JArr [JStr "A1"]) listeningWorld)))
        = houseCode.
Proof.
  split; [reflexivity|].
  intros [decode H].
  pose proof (H (JStr "A")) as HA. pose proof (H (JStr "B")) as HB.
  change (trace (world_of (NotifyUnitStatus (JNum 2) (JStr "B") JUndefined
                             (JArr [JStr "A1"]) listeningWorld)))
    with (trace (world_of (NotifyUnitStatus (JNum 2) (JStr "A") JUndefined
                             (JArr [JStr "A1"]) listeningWorld))) in HB.
  rewrite HA in HB. discriminate HB.
Qed.

Lemma NotifyUnitStatus_event_witness :
  events (ctrl listeningWorld) !! "unitStatus" = Some (JFun 7) /\
  trace (world_of (NotifyUnitStatus (JNum 2) (JStr "A") (JNum 11)
                     (JArr [JStr "A1"; JStr "A2"]) listeningWorld))
  = trace listeningWorld ++
    [ECall 7 [JObj [("units", JArr [JStr "A1"; JStr "A2"]);
                    ("x10Function", JNum 2);
                    ("level", JNum 11)]]].
Proof.
  split; [reflexivity|].
  rewrite (proj1 (NotifyUnitStatus_event (JNum 2) (JStr "A") (JNum 11)
                    (JArr [JStr "A1"; JStr "A2"]) listeningWorld) 7%nat eq_refl).
  reflexivity.
Defined.

Lemma initWorld_event_keys : has_event_keys (ctrl initWorld).
Proof. apply (events_ok_initial (ctrl initWorld)). reflexivity. Qed.

Lemma SetEvent_register_witness :
  has_event_keys (ctrl initWorld) /\
  (~ In "closed" EVENTS /\
   SetEvent "closed" (JFun 7) initWorld
   = Throw (ThrowString "Invalid event: closed") initWorld) /\
  (In "close" EVENTS /\ typeof (JStr "cb") <> "function" /\
   SetEvent "close" (JStr "cb") initWorld
   = Throw (ThrowString "Expected function for callBack.") initWorld) /\
  (typeof (JFun 7) = "function" /\
   events (ctrl (world_of (SetEvent "close" (JFun 7) initWorld))) !! "close"
   = Some (JFun 7)).
Proof.
  assert (Hin : In "close" EVENTS) by (right; right; left; reflexivity).
  assert (Hout : ~ In "closed" EVENTS).
  { intros [H|[H|[H|[]]]]; discriminate H. }
  assert (Hty : typeof (JStr "cb") <> "function") by discriminate.
  split; [exact initWorld_event_keys|]. split; [|split].
  - split; [exact Hout|].
    exact (proj1 (SetEvent_register "closed" (JFun 7) initWorld initWorld_event_keys) Hout).
  - split; [exact Hin|]. split; [exact Hty|].
    exact (proj1 (proj2 (proj2 (SetEvent_register "close" (JStr "cb") initWorld
                                  initWorld_event_keys))) Hin Hty).
  - split; [reflexivity|].
    exact (proj1 (proj2 (proj2 (proj2 (proj2 (SetEvent_register "close" (JFun 7) initWorld
                                  initWorld_event_keys))) Hin eq_refl))).
Defined.

Lemma Start_idempotent_witness :
  (running (ctrl initWorld) = false /\
   trace (world_of (Start "/dev/ttyUSB0" initWorld))
   = [ENewSerialPort 0%nat "/dev/ttyUSB0" 4800; ESerialOn 0%nat "data";
      ESerialOn 0%nat "error"; ESerialOn 0%nat "close"]) /\
  (running (ctrl startedWorld) = true /\
   Start "/dev/ttyUSB1" startedWorld = Ok true startedWorld).
Proof.
  split.
  - split; [reflexivity|].
    rewrite (proj1 (proj2 (Start_idempotent "/dev/ttyUSB0" initWorld)) eq_refl).
    reflexivity.
  - split; [reflexivity|].
    exact (proj1 (proj2 (proj2 (Start_idempotent "/dev/ttyUSB1" startedWorld))) eq_refl).
Defined.

(** [running] is cleared by the second [stop()], though no close signal
    has arrived. *)
Lemma Stop_in_flight_clears_running :
  forallb (fun i => match i with InClose => false | _ => true end) stopTwice = true /\
  running (ctrl startedWorld) = true /\
  running (ctrl (world_of (steps [InStop; InSubmit cmdA1on] startedWorld))) = true /\
  currentTrans (ctrl (world_of (steps [InStop; InSubmit cmdA1on] startedWorld)))
  = Some cmdA1on /\
  running (ctrl (world_of (steps stopTwice startedWorld))) = false /\
  running (ctrl (world_of (Stop busyWorld))) = false.
Proof. repeat split; vm_compute; reflexivity. Qed.

Lemma Stop_idle_keeps_running_witness :
  (running (ctrl startedWorld) = true /\ currentTrans (ctrl startedWorld) = None /\
   serial (ctrl startedWorld) = Some 0%nat) /\
  running (ctrl (world_of (Stop startedWorld))) = true /\
  currentTrans (ctrl (world_of (RunTransaction cmdA1on (world_of (Stop startedWorld)))))
  = Some (fst (run cmdA1on)).
Proof.
  split; [split; [reflexivity | split; reflexivity]|].
  destruct (Stop_idle_keeps_running startedWorld 0%nat eq_refl eq_refl eq_refl)
    as (_ & _ & H3 & H4 & _).
  split; [exact H3|]. exact (proj1 (H4 cmdA1on)).
Defined.

(** * The further properties on the sample module *)

Lemma busyWorld_timers_fresh : timers_fresh busyWorld.
Proof.
  split.
  - intros h [<-|[]]. vm_compute. lia.
  - intros h H. injection H as <-. vm_compute. lia.
Qed.

Lemma leakedWorld_timers_fresh : timers_fresh leakedWorld.
Proof.
  split.
  - intros h [<-|[<-|[]]]; vm_compute; lia.
  - intros h H. injection H as <-. vm_compute. lia.
Qed.

Lemma step_returns_witness :
  well_formed busyWorld /\ admissible (InData [90]) busyWorld /\
  exists w', step (InData [90]) busyWorld = Ok tt w' /\ well_formed w'.
Proof.
  assert (H : well_formed busyWorld) by exact (stable_well_formed _ busyWorld_stable).
  split; [exact H|]. split; [exact I|].
  exact (step_returns (InData [90]) busyWorld H I).
Defined.

Lemma NotifyStatus_last_listener_witness :
  has_event_keys (ctrl initWorld) /\
  exists w1,
    steps [InOn "status" (JFun 3); InOn "status" (JFun 4)] initWorld = Ok tt w1 /\
    trace w1 = trace initWorld /\
    events (ctrl w1) !! "unitStatus" = events (ctrl initWorld) !! "unitStatus" /\
    events (ctrl w1) !! "close" = events (ctrl initWorld) !! "close" /\
    NotifyStatus (JStr "ready") w1 = Ok tt (with_trace [ECall 4 [JStr "ready"]] w1) /\
    (3%nat <> 4%nat ->
     invocations 3 (trace (world_of (NotifyStatus (JStr "ready") w1)))
     = invocations 3 (trace initWorld)).
Proof.
  split; [exact initWorld_event_keys|].
  exact (NotifyStatus_last_listener 3 4 (JStr "ready") initWorld initWorld_event_keys).
Defined.

Lemma unit_commands_submit_witness :
  (stable busyWorld /\
   exists w', Dim (JArr [JStr "A1"]) (JNum 11) busyWorld = Ok tt w' /\ stable w' /\
              order w' = order busyWorld ++ [Command DIM (JArr [JStr "A1"]) (JNum 11)]) /\
  (running (ctrl initWorld) = false /\
   TurnOn (JArr [JStr "A1"]) initWorld = Ok tt initWorld).
Proof.
  split.
  - split; [exact busyWorld_stable|].
    exact (proj1 (proj2 (proj2 (proj1
             (unit_commands_submit (JArr [JStr "A1"]) (JNum 11) busyWorld)
             busyWorld_stable)))).
  - split; [reflexivity|].
    exact (proj1 (proj2 (unit_commands_submit (JArr [JStr "A1"]) JUndefined initWorld)
                    eq_refl)).
Defined.

Lemma overwritten_timer_stays_armed_witness :
  (timers_fresh busyWorld /\ serial (ctrl busyWorld) = Some 0%nat /\
   timer (ctrl busyWorld) = Some 0%nat /\ In 0%nat (pendingTimers busyWorld) /\
   orphaned 0%nat (world_of (SerialWrite [4; 102] (Some 1000) busyWorld))) /\
  (timers_fresh leakedWorld /\ orphaned 0%nat leakedWorld /\
   forallb (not_fire 0%nat) laterSession = true /\
   orphaned 0%nat (world_of (steps laterSession leakedWorld))).
Proof.
  split.
  - assert (Hin : In 0%nat (pendingTimers busyWorld)) by (left; reflexivity).
    split; [exact busyWorld_timers_fresh|]. split; [reflexivity|].
    split; [reflexivity|]. split; [exact Hin|].
    exact (proj1 (overwritten_timer_stays_armed 0%nat busyWorld busyWorld_timers_fresh)
             0%nat [4; 102] 1000 eq_refl eq_refl Hin).
  - assert (Ho : orphaned 0%nat leakedWorld).
    { split; [left; reflexivity | discriminate]. }
    split; [exact leakedWorld_timers_fresh|]. split; [exact Ho|].
    split; [reflexivity|].
    exact (proj1 (proj2 (proj2 (overwritten_timer_stays_armed 0%nat leakedWorld
                                  leakedWorld_timers_fresh) Ho laterSession eq_refl))).
Defined.

Lemma cancelled_timer_never_fires_witness :
  timers_fresh busyWorld /\ timer (ctrl busyWorld) = Some 0%nat /\
  ~ In 0%nat (pendingTimers
                (world_of (steps timedSession (world_of (CancelTimer busyWorld))))) /\
  fire 0%nat (world_of (steps timedSession (world_of (CancelTimer busyWorld))))
  = Ok tt (world_of (steps timedSession (world_of (CancelTimer busyWorld)))).
Proof.
  split; [exact busyWorld_timers_fresh|]. split; [reflexivity|].
  exact (cancelled_timer_never_fires 0%nat busyWorld busyWorld_timers_fresh eq_refl
           timedSession).
Defined.

Lemma SerialRead_not_running_witness :
  running (ctrl initWorld) = false /\
  currentTrans (ctrl initWorld) = None /\
  SerialRead [90; 2] initWorld = Ok tt initWorld.
Proof.
  split; [reflexivity|]. split; [reflexivity|].
  exact (proj2 (proj2 (proj2 (proj2 (SerialRead_not_running [90; 2] initWorld eq_refl))))
           eq_refl).
Defined.

Lemma initWorld_well_formed : well_formed initWorld.
Proof.
  split; [apply events_ok_initial; reflexivity|]. split; [discriminate|].
  intros t. discriminate.
Qed.

Lemma Stop_without_port_throws_witness :
  well_formed initWorld /\ serial (ctrl initWorld) = None /\
  Stop initWorld = Throw (TypeError "this.serial.close is not a function") initWorld.
Proof.
  split; [exact initWorld_well_formed|]. split; [reflexivity|].
  exact (proj1 (proj2 (proj2 (Stop_without_port_throws initWorld
                                 initWorld_well_formed eq_refl)))).
Defined.

Lemma Start_during_stop_leaks_port_witness :
  (currentTrans (ctrl busyWorld) = Some cmdA1on /\
   serial (ctrl busyWorld) = Some 0%nat /\ (0 < freshPort busyWorld)%nat) /\
  running (ctrl (world_of (steps [InStop; InStart "/dev/ttyUSB1"] busyWorld))) = true /\
  serial (ctrl (world_of (steps [InStop; InStart "/dev/ttyUSB1"] busyWorld)))
  = Some (freshPort busyWorld).
Proof.
  assert (Hlt : (0 < freshPort busyWorld)%nat) by (vm_compute; lia).
  split; [split; [reflexivity | split; [reflexivity | exact Hlt]]|].
  destruct (Start_during_stop_leaks_port "/dev/ttyUSB1" 0%nat cmdA1on busyWorld
              eq_refl eq_refl Hlt) as (H1 & _ & H3 & _).
  split; [exact H1 | exact H3].
Defined.

Lemma registrations_compose_witness :
  has_event_keys (ctrl initWorld) /\ In "status" EVENTS /\ In "close" EVENTS /\
  "status" <> "close" /\
  steps [InOn "status" (JFun 3); InOn "close" (JFun 4)] initWorld
  = steps [InOn "close" (JFun 4); InOn "status" (JFun 3)] initWorld.
Proof.
  assert (H1 : In "status" EVENTS) by (right; left; reflexivity).
  assert (H2 : In "close" EVENTS) by (right; right; left; reflexivity).
  assert (Hne : "status" <> "close") by discriminate.
  split; [exact initWorld_event_keys|]. split; [exact H1|]. split; [exact H2|].
  split; [exact Hne|].
  exact (proj1 (registrations_compose "status" "close" 3 4 initWorld
                  initWorld_event_keys H1 H2) Hne).
Defined.

Lemma close_signal_in_flight_witness :
  well_formed busyWorld /\ currentTrans (ctrl busyWorld) = Some cmdA1on /\
  serial (ctrl busyWorld) = Some 0%nat /\
  exists w1 w2,
    Stopped busyWorld = Ok tt w1 /\
    running (ctrl w1) = false /\ currentTrans (ctrl w1) = Some cmdA1on /\
    closed (trace w1) = closed (trace busyWorld) /\
    settle Rejected w1 = Ok tt w2 /\
    running (ctrl w2) = false /\ currentTrans (ctrl w2) = None /\
    transactionQueue (ctrl w2) = transactionQueue (ctrl busyWorld) /\
    started (trace w2) = started (trace busyWorld) /\
    closed (trace w2) = closed (trace busyWorld) ++ [0%nat].
Proof.
  assert (H : well_formed busyWorld) by exact (stable_well_formed _ busyWorld_stable).
  split; [exact H|]. split; [reflexivity|]. split; [reflexivity|].
  exact (close_signal_in_flight Rejected 0%nat cmdA1on busyWorld H eq_refl eq_refl).
Defined.

Lemma queuedWorld_stable : stable queuedWorld.
Proof.
  apply (stable_initial_events queuedWorld 0%nat); try reflexivity. discriminate.
Qed.

Lemma queue_drains_witness :
  stable queuedWorld /\ (exists t, currentTrans (ctrl queuedWorld) = Some t) /\
  length [Fulfilled; Rejected] = S (length (transactionQueue (ctrl queuedWorld))) /\
  exists w',
    steps (map InSettle [Fulfilled; Rejected]) queuedWorld = Ok tt w' /\
    stable w' /\
    currentTrans (ctrl w') = None /\
    transactionQueue (ctrl w') = [] /\
    started (trace w') = started (trace queuedWorld) ++ transactionQueue (ctrl queuedWorld).
Proof.
  assert (Hc : exists t, currentTrans (ctrl queuedWorld) = Some t)
    by (exists cmdA1on; reflexivity).
  split; [exact queuedWorld_stable|]. split; [exact Hc|]. split; [reflexivity|].
  exact (queue_drains [Fulfilled; Rejected] queuedWorld queuedWorld_stable Hc eq_refl).
Defined.
